(** * The [meltano run] command: run engine and lifecycle events

    A shallow embedding of [src/meltano/cli/run.py]: the click command
    [run] and its helper [_run_blocks].

    The Python code is sequential and effectful.  It talks to a handful of
    collaborators (the structlog logger, the tracker, the legacy tracker,
    the block parser, the validator and the blocks' own [run()]
    coroutines), it mutates one shared object (the tracker, whose attached
    contexts change inside [with tracker.with_contexts(...)]), and it
    raises and catches exceptions.  The embedding is a small monad [Py]:

    - the state is the [Tracker] object;
    - the output is the chronological list of [Effect]s, one per call made
      to a collaborator;
    - a computation either returns a value or raises a [PyException].

    Scope of the model.  [PyException] stands for instances of Python's
    [Exception] class, the class both handlers of the source name
    ([except Exception as ...]); interpreter signals that derive from
    [BaseException] only are outside the model.  The calls made to the
    logger and to the tracker return normally.  An [await] is a plain
    blocking call: the engine is a single thread of control.  The command is
    registered with the class [InstrumentedCmd], whose code is outside the
    source file: what that class does around the body of [run], such as
    sending events of its own, is not part of the model, which starts at
    the first line of the body and ends where the body returns or
    raises. *)

From Stdlib Require Import List String Bool Arith ZArith Lia Sorted DecimalString.
Import ListNotations.
Open Scope string_scope.
Open Scope list_scope.
Set Warnings "-register-all".

(** ** Data *)

(** Exceptions.  [RunnerError] comes from [meltano.core.runner], [CliError]
    from [meltano.cli]; a [CliError] raised with [raise ... from err]
    carries [err] as its cause. *)
Inductive PyException : Type :=
| RunnerError (message : string) (exitcodes : list Z)
| CliError (message : string) (cause : option PyException)
| OtherException (exc_class : string) (message : string).

(** [isinstance(err, RunnerError)]: what the first [except] clause of
    [_run_blocks] tests. *)
Definition is_RunnerError (e : PyException) : bool :=
  match e with
  | RunnerError _ _ => true
  | _ => false
  end.

(** [str(err)], as used by the f-string of the [CliError] message. *)
Definition exn_str (e : PyException) : string :=
  match e with
  | RunnerError m _ => m
  | CliError m _ => m
  | OtherException _ m => m
  end.

(** The two kinds of unit of a parsed plan, [BlockSet | PluginCommandBlock],
    with the attributes [_run_blocks] reads: the [string_id] of every
    plugin of [blk.blocks], or [blk.string_id] and [blk.command]. *)
Inductive BlockShape : Type :=
| BlockSet (blocks : list string)
| PluginCommandBlock (string_id : string) (command : string).

(** What awaiting [blk.run()] does when the engine reaches it. *)
Inductive RunOutcome : Type :=
| Returns
| Raises (e : PyException).

(** A unit of the plan: its class name ([blk.__class__.__name__]), its
    shape and the behaviour of its [run()]. *)
Record Block : Type := mkBlock {
  class_name : string;
  shape : BlockShape;
  run : RunOutcome
}.

(** [BlockEvents] and [CliEvent] of [meltano.core.tracking], restricted to
    the members the command uses. *)
Inductive BlockEvents : Type := initialized | completed | failed.

Inductive CliEvent : Type := cli_aborted | cli_failed | cli_completed.

(** Tracking contexts.  The tracker starts with contexts of its own
    (environment, project, ...), which the command never inspects. *)
Inductive TrackingContext : Type :=
| AmbientContext (name : string)
| PluginsTrackingContext (plugins : list (string * option string)).

(** Modelled from the spec: [PluginsTrackingContext.from_block] is not part
    of the source file.  The context is derived purely from the unit's
    constituent plugin identities: every plugin of a block set, or the
    plugin of a command block together with its command. *)
Definition from_block (blk : Block) : TrackingContext :=
  match shape blk with
  | BlockSet plugins => PluginsTrackingContext (map (fun p => (p, None)) plugins)
  | PluginCommandBlock sid cmd => PluginsTrackingContext [(sid, Some cmd)]
  end.

(** The tracker: the shared object whose attached contexts
    [with_contexts] changes. *)
Record Tracker : Type := mkTracker { contexts : list TrackingContext }.

(** Values of the key-value pairs handed to structlog. *)
Inductive LogValue : Type :=
| LStr (s : string)
| LStrList (l : list string)
| LInt (n : nat)
| LBool (b : bool)
| LNone
| LExn (e : PyException)
| LExitCodes (codes : list Z).

Inductive LogLevel : Type := debug | info | error.

(** One entry per call to a collaborator.  [idx] is the [enumerate] index
    of the loop iteration of [_run_blocks] that makes the call; events
    record the contexts attached to the tracker at the time of the call. *)
Inductive Effect : Type :=
| ELog (level : LogLevel) (event : string) (fields : list (string * LogValue))
| EChangeConsoleLogLevel
| EFindBlocks (blocks : list string) (full_refresh no_state_update force : bool)
| EValidate (parsed_blocks : list Block)
| ECommandEvent (ev : CliEvent) (attached : list TrackingContext)
| EBlockEvent (idx : nat) (blk_name : string) (ev : BlockEvents)
              (attached : list TrackingContext)
| ERun (idx : nat) (blk : Block)
| ELegacyTrackRun (blocks : list string).

(** ** The monad *)

Inductive Result (A : Type) : Type :=
| Return (a : A)
| Raise (e : PyException).
Arguments Return {A} a.
Arguments Raise {A} e.

Record Outcome (A : Type) : Type := mkOutcome {
  result : Result A;
  tracker_after : Tracker;
  trace : list Effect
}.
Arguments mkOutcome {A} _ _ _.
Arguments result {A} _.
Arguments tracker_after {A} _.
Arguments trace {A} _.

Definition Py (A : Type) : Type := Tracker -> Outcome A.

Definition ret {A} (a : A) : Py A := fun trk => mkOutcome (Return a) trk [].

Definition raise {A} (e : PyException) : Py A := fun trk => mkOutcome (Raise e) trk [].

Definition bind {A B} (m : Py A) (k : A -> Py B) : Py B :=
  fun trk =>
    let o := m trk in
    match result o with
    | Return a =>
        let o' := k a (tracker_after o) in
        mkOutcome (result o') (tracker_after o') (trace o ++ trace o')
    | Raise e => mkOutcome (Raise e) (tracker_after o) (trace o)
    end.

Notation "x <- m ;; k" := (bind m (fun x => k))
  (at level 100, m at next level, right associativity).
Notation "m ;; k" := (bind m (fun _ => k))
  (at level 100, right associativity).

(** [try: body / except Exception as err: handler err]. *)
Definition try_except {A} (body : Py A) (handler : PyException -> Py A) : Py A :=
  fun trk =>
    let o := body trk in
    match result o with
    | Return a => o
    | Raise e =>
        let o' := handler e (tracker_after o) in
        mkOutcome (result o') (tracker_after o') (trace o ++ trace o')
    end.

Definition emit (e : Effect) : Py unit := fun trk => mkOutcome (Return tt) trk [e].

(** ** Collaborators *)

Definition log (level : LogLevel) (event : string)
    (fields : list (string * LogValue)) : Py unit :=
  emit (ELog level event fields).

(** [tracker.track_command_event(ev)]. *)
Definition track_command_event (ev : CliEvent) : Py unit :=
  fun trk => mkOutcome (Return tt) trk [ECommandEvent ev (contexts trk)].

(** [tracker.track_block_event(blk_name, ev)], called in iteration [idx]. *)
Definition track_block_event (idx : nat) (blk_name : string) (ev : BlockEvents)
    : Py unit :=
  fun trk => mkOutcome (Return tt) trk [EBlockEvent idx blk_name ev (contexts trk)].

(** Modelled from the spec: [Tracker.with_contexts] is not part of the
    source file.  It is a context manager that attaches the extra context
    to the tracker for the duration of the [with] body only: the previous
    contexts are put back when the body is left, whether it returned or
    raised. *)
Definition with_contexts {A} (ctx : TrackingContext) (body : Py A) : Py A :=
  fun trk =>
    let prev_contexts := contexts trk in
    let o := body (mkTracker (prev_contexts ++ [ctx])) in
    mkOutcome (result o) (mkTracker prev_contexts) (trace o).

(** [await blk.run()] in iteration [idx]. *)
Definition await_run (idx : nat) (blk : Block) : Py unit :=
  fun trk =>
    mkOutcome (match run blk with Returns => Return tt | Raises e => Raise e end)
              trk [ERun idx blk].

(** The code outside the source file that [run] calls: the settings
    overrides, the block parser and the validator. *)
Record Collaborators : Type := mkCollaborators {
  (** [ProjectSettingsService.config_override], a dict. *)
  config_override : list (string * string);
  (** [list(BlockParser(logger, project, blocks, full_refresh,
      no_state_update, force).find_blocks(0))]. *)
  find_blocks : list string -> bool -> bool -> bool -> Result (list Block);
  (** [validate_block_sets(logger, parsed_blocks)]. *)
  validate_block_sets : list Block -> bool
}.

(** [d.get(key)] on a dict kept as an association list. *)
Fixpoint dict_get (d : list (string * string)) (key : string) : option string :=
  match d with
  | [] => None
  | (k, v) :: d' => if String.eqb k key then Some v else dict_get d' key
  end.

(** Python truthiness of the result of [dict.get]: [None] and the empty
    string are falsy. *)
Definition truthy (v : option string) : bool :=
  match v with
  | None => false
  | Some s => negb (String.eqb s "")
  end.

(** ** [_run_blocks] *)

Module Cli.

(** Decimal rendering of an integer inside an f-string. *)
Definition str_of_nat (n : nat) : string := NilEmpty.string_of_uint (Nat.to_uint n).

(** [f"Dry run, but would have run block {idx + 1}/{len(parsed_blocks)}."] *)
Definition dry_run_message (idx total : nat) : string :=
  String.append "Dry run, but would have run block "
    (String.append (str_of_nat (idx + 1))
       (String.append "/" (String.append (str_of_nat total) "."))).

(** The [comprised_of] field of the dry-run log entry. *)
Definition comprised_of (blk : Block) : LogValue :=
  match shape blk with
  | BlockSet plugins => LStrList plugins
  | PluginCommandBlock sid cmd => LStr (String.append sid (String.append ":" cmd))
  end.

(** The dry-run log entry of one unit (lines 137-148). *)
Definition dry_run_log_entry (idx total : nat) (blk : Block) : Effect :=
  ELog info (dry_run_message idx total)
       [("block_type", LStr (class_name blk)); ("comprised_of", comprised_of blk)].

(** The log entry of a failed run (lines 154-161). *)
Definition failed_log_entry (idx : nat) (blk : Block) (err : PyException)
    (codes : list Z) : Effect :=
  ELog error "Block run completed."
       [("set_number", LInt idx); ("block_type", LStr (class_name blk));
        ("success", LBool false); ("err", LExn err);
        ("exit_codes", LExitCodes codes)].

(** The log entry of a successful run (lines 172-178). *)
Definition completed_log_entry (idx : nat) (blk : Block) : Effect :=
  ELog info "Block run completed."
       [("set_number", LInt idx); ("block_type", LStr (class_name blk));
        ("success", LBool true); ("err", LNone)].

(** The message of the [CliError] raised on a runner failure. *)
Definition block_failed_message (err : PyException) : string :=
  String.append "Run invocation could not be completed as block failed: "
                (exn_str err).

(** The two [except] clauses around [await blk.run()] (lines 153-170). *)
Definition run_failure_handler (idx : nat) (blk : Block) (err : PyException)
    : Py unit :=
  let blk_name := class_name blk in
  let tracking_ctx := from_block blk in
  match err with
  | RunnerError _ codes =>
      emit (failed_log_entry idx blk err codes) ;;
      with_contexts tracking_ctx (track_block_event idx blk_name failed) ;;
      raise (CliError (block_failed_message err) (Some err))
  | _ =>
      with_contexts tracking_ctx (track_block_event idx blk_name failed) ;;
      raise err
  end.

(** The body of the [for idx, blk in enumerate(parsed_blocks)] loop, from
    iteration [idx] on; [total] is [len(parsed_blocks)]. *)
Fixpoint run_blocks_from (idx total : nat) (rest : list Block) (dry_run : bool)
    : Py unit :=
  match rest with
  | [] => ret tt
  | blk :: rest' =>
      let blk_name := class_name blk in
      let tracking_ctx := from_block blk in
      with_contexts tracking_ctx (track_block_event idx blk_name initialized) ;;
      if dry_run then
        emit (dry_run_log_entry idx total blk) ;;
        run_blocks_from (S idx) total rest' dry_run
      else
        try_except (await_run idx blk) (run_failure_handler idx blk) ;;
        emit (completed_log_entry idx blk) ;;
        with_contexts tracking_ctx (track_block_event idx blk_name completed) ;;
        run_blocks_from (S idx) total rest' dry_run
  end.

Definition _run_blocks (parsed_blocks : list Block) (dry_run : bool) : Py unit :=
  run_blocks_from 0 (List.length parsed_blocks) parsed_blocks dry_run.

(** ** [run] *)

(** Lines 90-93: a dry run lowers the console log level unless the user
    overrode [cli.log_level]. *)
Definition dry_run_log_level (c : Collaborators) (dry_run : bool) : Py unit :=
  if dry_run then
    if negb (truthy (dict_get (config_override c) "cli.log_level")) then
      log info "Setting 'console' handler log level to 'debug' for dry run" [] ;;
      emit EChangeConsoleLogLevel
    else ret tt
  else ret tt.

(** Lines 100-103: building the parser and listing its blocks, either of
    which may raise. *)
Definition parse_blocks (c : Collaborators) (blocks : list string)
    (full_refresh no_state_update force : bool) : Py (list Block) :=
  emit (EFindBlocks blocks full_refresh no_state_update force) ;;
  match find_blocks c blocks full_refresh no_state_update force with
  | Return parsed => ret parsed
  | Raise e => raise e
  end.

(** Lines 112-123, reached with a non-empty parsed plan. *)
Definition validate_and_run (c : Collaborators) (dry_run : bool)
    (blocks : list string) (parsed_blocks : list Block) : Py unit :=
  emit (EValidate parsed_blocks) ;;
  (if validate_block_sets c parsed_blocks then
     log debug "All ExtractLoadBlocks validated, starting execution." []
   else
     track_command_event cli_aborted ;;
     raise (CliError "Some ExtractLoadBlocks set failed validation." None)) ;;
  try_except (_run_blocks parsed_blocks dry_run)
    (fun err => track_command_event cli_failed ;; raise err) ;;
  track_command_event cli_completed ;;
  emit (ELegacyTrackRun blocks).

(** The command.  The early [return] of line 107 leaves the function from
    inside the [try]; [None] stands for it below. *)
Definition run (c : Collaborators)
    (dry_run full_refresh no_state_update force : bool) (blocks : list string)
    : Py unit :=
  dry_run_log_level c dry_run ;;
  parsed <- try_except
              (parsed_blocks <- parse_blocks c blocks full_refresh no_state_update force ;;
               match parsed_blocks with
               | [] =>
                   track_command_event cli_aborted ;;
                   log info "No valid blocks found." [] ;;
                   ret None
               | _ :: _ => ret (Some parsed_blocks)
               end)
              (fun parser_err => track_command_event cli_aborted ;; raise parser_err) ;;
  match parsed with
  | None => ret tt
  | Some parsed_blocks => validate_and_run c dry_run blocks parsed_blocks
  end.

End Cli.

(** ** Observations on traces *)

(** Whether awaiting the unit's [run()] returns. *)
Definition succeeds (blk : Block) : bool :=
  match run blk with
  | Returns => true
  | Raises _ => false
  end.

(** The loop iteration an effect belongs to, for the two calls that are
    made on behalf of one unit: the tracker's block event and [run()]. *)
Definition effect_index (eff : Effect) : option nat :=
  match eff with
  | EBlockEvent idx _ _ _ => Some idx
  | ERun idx _ => Some idx
  | _ => None
  end.

(** The block events of unit [N], in the order of emission. *)
Fixpoint unit_events (N : nat) (tr : list Effect) : list BlockEvents :=
  match tr with
  | [] => []
  | EBlockEvent idx _ ev _ :: tr' =>
      if Nat.eqb idx N then ev :: unit_events N tr' else unit_events N tr'
  | _ :: tr' => unit_events N tr'
  end.

(** The unit indices of the block events of a trace, in the order of
    emission. *)
Fixpoint block_event_indices (tr : list Effect) : list nat :=
  match tr with
  | [] => []
  | EBlockEvent idx _ _ _ :: tr' => idx :: block_event_indices tr'
  | _ :: tr' => block_event_indices tr'
  end.

(** Events sent to the tracker, at run level or at block level. *)
Definition is_tracker_event (eff : Effect) : bool :=
  match eff with
  | ECommandEvent _ _ | EBlockEvent _ _ _ _ => true
  | _ => false
  end.

Definition is_block_event (eff : Effect) : bool :=
  match eff with
  | EBlockEvent _ _ _ _ => true
  | _ => false
  end.

Definition is_run (eff : Effect) : bool :=
  match eff with
  | ERun _ _ => true
  | _ => false
  end.

Definition is_initialized (eff : Effect) : bool :=
  match eff with
  | EBlockEvent _ _ initialized _ => true
  | _ => false
  end.

(** A [completed] or [failed] block event. *)
Definition is_terminal (eff : Effect) : bool :=
  match eff with
  | EBlockEvent _ _ completed _ | EBlockEvent _ _ failed _ => true
  | _ => false
  end.

Definition is_run_level_event (eff : Effect) : bool :=
  match eff with
  | ECommandEvent _ _ => true
  | _ => false
  end.

(** What lines 90-93 do before parsing; it does not depend on the
    tracker. *)
Definition log_level_effects (c : Collaborators) (dry_run : bool) : list Effect :=
  trace (Cli.dry_run_log_level c dry_run (mkTracker [])).

(** [enumerate(parsed_blocks)], starting at [idx]. *)
Definition enumerate_from (idx : nat) (l : list Block) : list (nat * Block) :=
  combine (seq idx (List.length l)) l.

(** The block event of unit [blk] in iteration [idx], emitted on a tracker
    whose own contexts are those of [trk]. *)
Definition block_event (trk : Tracker) (idx : nat) (blk : Block)
    (ev : BlockEvents) : Effect :=
  EBlockEvent idx (class_name blk) ev (contexts trk ++ [from_block blk]).

(** An outcome with more effects in front of its trace. *)
Definition after {A} (pre : list Effect) (o : Outcome A) : Outcome A :=
  mkOutcome (result o) (tracker_after o) (pre ++ trace o).

(** The two effects of a dry iteration over the pair [(idx, blk)] of
    [enumerate(parsed_blocks)], in a plan of [total] units. *)
Definition dry_iteration (trk : Tracker) (total : nat) (p : nat * Block)
    : list Effect :=
  [block_event trk (fst p) (snd p) initialized;
   Cli.dry_run_log_entry (fst p) total (snd p)].

(** The per-unit ordering as the specification words it, for the units
    that emit an [initialized] event at all: [initialized] is followed by
    exactly one of [completed] and [failed]. *)
Definition ordering_as_specified (plan : list Block) (dry_run : bool)
    (trk : Tracker) : Prop :=
  let tr := trace (Cli._run_blocks plan dry_run trk) in
  forall N, In initialized (unit_events N tr) ->
            unit_events N tr = [initialized; completed]
            \/ unit_events N tr = [initialized; failed].

(** *** Further observations *)

(** Whether a computation returned. *)
Definition returned {A} (r : Result A) : bool :=
  match r with
  | Return _ => true
  | Raise _ => false
  end.

(** The exception the loop raises when a unit's [run()] raises [e]: a
    [RunnerError] comes out wrapped in a [CliError], anything else as it
    is. *)
Definition surfaced (e : PyException) : PyException :=
  if is_RunnerError e then CliError (Cli.block_failed_message e) (Some e) else e.

(** The number of units the loop starts outside a dry run: the units up to
    and including the first one whose [run()] raises. *)
Fixpoint units_started (l : list Block) : nat :=
  match l with
  | [] => 0
  | blk :: rest => if succeeds blk then S (units_started rest) else 1
  end.

(** The calls to [run()], in order, each with its iteration index. *)
Fixpoint run_calls (tr : list Effect) : list (nat * Block) :=
  match tr with
  | [] => []
  | ERun idx blk :: tr' => (idx, blk) :: run_calls tr'
  | _ :: tr' => run_calls tr'
  end.

Definition is_find_blocks (eff : Effect) : bool :=
  match eff with
  | EFindBlocks _ _ _ _ => true
  | _ => false
  end.

Definition is_validate (eff : Effect) : bool :=
  match eff with
  | EValidate _ => true
  | _ => false
  end.

Definition is_legacy_track (eff : Effect) : bool :=
  match eff with
  | ELegacyTrackRun _ => true
  | _ => false
  end.

Definition is_change_log_level (eff : Effect) : bool :=
  match eff with
  | EChangeConsoleLogLevel => true
  | _ => false
  end.

(** What a dry run reads of a unit: its class name and its plugins. *)
Definition description (blk : Block) : string * BlockShape :=
  (class_name blk, shape blk).

(** The run-level [completed] event. *)
Definition is_run_completed (eff : Effect) : bool :=
  match eff with
  | ECommandEvent cli_completed _ => true
  | _ => false
  end.

(** The run-level event of an invocation, read off what the parser, the
    validator and the units do. *)
Definition run_level_verdict (c : Collaborators)
    (dry_run full_refresh no_state_update force : bool) (blocks : list string)
    : CliEvent :=
  match find_blocks c blocks full_refresh no_state_update force with
  | Raise _ => cli_aborted
  | Return [] => cli_aborted
  | Return parsed_blocks =>
      if validate_block_sets c parsed_blocks then
        if (dry_run || forallb succeeds parsed_blocks)%bool then cli_completed
        else cli_failed
      else cli_aborted
  end.

(** ** Sample plans *)

Module Sample.

Definition el_gitlab : Block :=
  mkBlock "ExtractLoadBlocks" (BlockSet ["tap-gitlab"; "target-postgres"]) Returns.

Definition dbt_test : Block :=
  mkBlock "InvokerCommand" (PluginCommandBlock "dbt" "test") Returns.

Definition el_broken : Block :=
  mkBlock "ExtractLoadBlocks" (BlockSet ["tap-salesforce"; "target-mysql"])
          (Raises (RunnerError "Loader failed" [0%Z; 1%Z])).

Definition dbt_crash : Block :=
  mkBlock "InvokerCommand" (PluginCommandBlock "dbt" "run")
          (Raises (OtherException "FileNotFoundError" "dbt executable not found")).

Definition trk0 : Tracker := mkTracker [AmbientContext "environment"; AmbientContext "project"].

Definition tokens : list string :=
  ["tap-gitlab"; "target-postgres"; "dbt:test"].

(** A parser that recognises [tokens], finds nothing in an empty
    invocation and rejects anything else. *)
Definition parser (blocks : list string) (full_refresh no_state_update force : bool)
    : Result (list Block) :=
  match blocks with
  | [] => Return []
  | _ :: _ =>
      if list_eq_dec string_dec blocks tokens then Return [el_gitlab; dbt_test]
      else if list_eq_dec string_dec blocks ["tap-salesforce"; "target-mysql"; "dbt:test"]
      then Return [el_broken; dbt_test]
      else Raise (OtherException "ClickException" "Block not found")
  end.

Definition accepting : Collaborators :=
  mkCollaborators [] parser (fun _ => true).

Definition rejecting : Collaborators :=
  mkCollaborators [("cli.log_level", "info")] parser (fun _ => false).

End Sample.

(** ** The loop, one iteration at a time *)

Lemma after_nil {A} (o : Outcome A) : after [] o = o.
Proof. destruct o; reflexivity. Qed.

Lemma after_after {A} (p q : list Effect) (o : Outcome A) :
  after p (after q o) = after (p ++ q) o.
Proof. unfold after; simpl. now rewrite app_assoc. Qed.

(** The context is attached for the emission and is gone afterwards. *)
Lemma scoped_block_event (trk : Tracker) (idx : nat) (blk : Block) (ev : BlockEvents) :
  with_contexts (from_block blk) (track_block_event idx (class_name blk) ev) trk
  = mkOutcome (Return tt) trk [block_event trk idx blk ev].
Proof. destruct trk as [cs]. reflexivity. Qed.

Ltac step_monad :=
  unfold bind, try_except, with_contexts, track_block_event, emit, log, raise,
    ret, await_run, after, block_event;
  cbn [result tracker_after trace app contexts].

(** A dry iteration: the [initialized] event and the log entry. *)
Lemma run_blocks_from_dry idx total blk rest trk :
  Cli.run_blocks_from idx total (blk :: rest) true trk
  = after [block_event trk idx blk initialized; Cli.dry_run_log_entry idx total blk]
          (Cli.run_blocks_from (S idx) total rest true trk).
Proof. destruct trk as [cs]. cbn [Cli.run_blocks_from]. step_monad. reflexivity. Qed.

(** An iteration whose [run()] returns. *)
Lemma run_blocks_from_returns idx total blk rest trk :
  run blk = Returns ->
  Cli.run_blocks_from idx total (blk :: rest) false trk
  = after [block_event trk idx blk initialized; ERun idx blk;
           Cli.completed_log_entry idx blk; block_event trk idx blk completed]
          (Cli.run_blocks_from (S idx) total rest false trk).
Proof.
  intros Hrun. destruct trk as [cs]. cbn [Cli.run_blocks_from]. step_monad.
  rewrite Hrun. reflexivity.
Qed.

(** An iteration whose [run()] raises a [RunnerError]. *)
Lemma run_blocks_from_runner_error idx total blk rest trk msg codes :
  run blk = Raises (RunnerError msg codes) ->
  Cli.run_blocks_from idx total (blk :: rest) false trk
  = mkOutcome
      (Raise (CliError (Cli.block_failed_message (RunnerError msg codes))
                       (Some (RunnerError msg codes))))
      trk
      [block_event trk idx blk initialized; ERun idx blk;
       Cli.failed_log_entry idx blk (RunnerError msg codes) codes;
       block_event trk idx blk failed].
Proof.
  intros Hrun. destruct trk as [cs]. cbn [Cli.run_blocks_from]. step_monad.
  rewrite Hrun. unfold Cli.run_failure_handler. step_monad. reflexivity.
Qed.

(** An iteration whose [run()] raises anything else. *)
Lemma run_blocks_from_other_error idx total blk rest trk e :
  run blk = Raises e -> is_RunnerError e = false ->
  Cli.run_blocks_from idx total (blk :: rest) false trk
  = mkOutcome (Raise e) trk
      [block_event trk idx blk initialized; ERun idx blk;
       block_event trk idx blk failed].
Proof.
  intros Hrun Hcls. destruct trk as [cs]. cbn [Cli.run_blocks_from]. step_monad.
  rewrite Hrun. unfold Cli.run_failure_handler.
  destruct e; try discriminate; step_monad; reflexivity.
Qed.

(** Whatever [run()] raises, the iteration stops the loop after emitting
    [initialized], running the unit and emitting [failed]. *)
Lemma run_blocks_from_raises idx total blk rest trk e :
  run blk = Raises e ->
  exists e' logged,
    Cli.run_blocks_from idx total (blk :: rest) false trk
    = mkOutcome (Raise e') trk
        ([block_event trk idx blk initialized; ERun idx blk] ++ logged
         ++ [block_event trk idx blk failed])
    /\ (forall eff, In eff logged -> exists l s f, eff = ELog l s f).
Proof.
  intros Hrun. destruct (is_RunnerError e) eqn:Hcls.
  - destruct e as [msg codes| |]; try discriminate.
    eexists _, [_]. split.
    + apply run_blocks_from_runner_error; eassumption.
    + intros eff [<- | []]. unfold Cli.failed_log_entry. eauto.
  - exists e, []. split.
    + now apply run_blocks_from_other_error.
    + intros eff [].
Qed.

(** A failing iteration does not look at the rest of the plan. *)
Lemma run_blocks_from_raises_rest idx total total' blk rest rest' trk e :
  run blk = Raises e ->
  Cli.run_blocks_from idx total (blk :: rest) false trk
  = Cli.run_blocks_from idx total' (blk :: rest') false trk.
Proof.
  intros Hrun. destruct (is_RunnerError e) eqn:Hcls.
  - destruct e as [msg codes| |]; try discriminate.
    now rewrite !(run_blocks_from_runner_error _ _ _ _ _ _ _ Hrun).
  - now rewrite !(run_blocks_from_other_error _ _ _ _ _ _ Hrun Hcls).
Qed.

(** ** Properties of the whole loop *)

(** Outside a dry run the loop never reads [len(parsed_blocks)]. *)
Lemma run_blocks_from_total l : forall idx total total' trk,
  Cli.run_blocks_from idx total l false trk
  = Cli.run_blocks_from idx total' l false trk.
Proof.
  induction l as [|blk rest IH]; intros idx total total' trk; [reflexivity|].
  destruct (run blk) as [|e] eqn:Hrun.
  - rewrite !(run_blocks_from_returns _ _ _ _ _ Hrun).
    now rewrite (IH (S idx) total total').
  - now apply run_blocks_from_raises_rest with (e := e).
Qed.

(** The tracker is left as it was found, in every mode and whatever the
    outcome. *)
Lemma run_blocks_from_tracker l : forall idx total dry_run trk,
  tracker_after (Cli.run_blocks_from idx total l dry_run trk) = trk.
Proof.
  induction l as [|blk rest IH]; intros idx total dry_run trk; [reflexivity|].
  destruct dry_run.
  - rewrite run_blocks_from_dry. simpl. apply IH.
  - destruct (run blk) as [|e] eqn:Hrun.
    + rewrite (run_blocks_from_returns _ _ _ _ _ Hrun). simpl. apply IH.
    + destruct (run_blocks_from_raises idx total blk rest trk e Hrun)
        as (e' & logged & -> & _). reflexivity.
Qed.

(** Every call made on behalf of a unit carries the index of a unit of the
    plan, at or after the iteration the loop started from. *)
Lemma run_blocks_from_indices l : forall idx total dry_run trk eff j,
  In eff (trace (Cli.run_blocks_from idx total l dry_run trk)) ->
  effect_index eff = Some j ->
  idx <= j < idx + List.length l.
Proof.
  induction l as [|blk rest IH]; intros idx total dry_run trk eff j Hin Hj.
  - destruct Hin.
  - assert (Hrest : In eff (trace (Cli.run_blocks_from (S idx) total rest dry_run trk))
                    -> idx <= j < idx + List.length (blk :: rest)).
    { intros H. specialize (IH _ _ _ _ _ _ H Hj). simpl. lia. }
    assert (Hhere : effect_index eff = Some idx
                    -> idx <= j < idx + List.length (blk :: rest)).
    { intros H. rewrite H in Hj. injection Hj as <-. simpl. lia. }
    destruct dry_run.
    + rewrite run_blocks_from_dry in Hin. simpl in Hin.
      destruct Hin as [<- | [<- | Hin]]; [now apply Hhere | discriminate | auto].
    + destruct (run blk) as [|e] eqn:Hrun.
      * rewrite (run_blocks_from_returns _ _ _ _ _ Hrun) in Hin. simpl in Hin.
        destruct Hin as [<- | [<- | [<- | [<- | Hin]]]];
          [now apply Hhere | now apply Hhere | discriminate | now apply Hhere | auto].
      * destruct (run_blocks_from_raises idx total blk rest trk e Hrun)
          as (e' & logged & Heq & Hlog).
        rewrite Heq in Hin. simpl in Hin.
        destruct Hin as [<- | [<- | Hin]]; [now apply Hhere | now apply Hhere |].
        apply in_app_or in Hin. destruct Hin as [Hin | [<- | []]].
        -- destruct (Hlog _ Hin) as (lv & s & f & ->). discriminate.
        -- now apply Hhere.
Qed.

(** Once a unit has raised, the units behind it play no part: the loop
    behaves as on the plan cut after that unit. *)
Lemma run_blocks_from_cut l : forall k u e idx total trk,
  nth_error l k = Some u -> run u = Raises e ->
  Cli.run_blocks_from idx total l false trk
  = Cli.run_blocks_from idx total (firstn (S k) l) false trk.
Proof.
  induction l as [|blk rest IH]; intros k u e idx total trk Hnth Hrun.
  - destruct k; discriminate.
  - destruct k as [|k].
    + injection Hnth as ->. simpl firstn.
      now apply run_blocks_from_raises_rest with (e := e).
    + simpl in Hnth. change (firstn (S (S k)) (blk :: rest)) with (blk :: firstn (S k) rest).
      destruct (run blk) as [|e0] eqn:Hblk.
      * rewrite !(run_blocks_from_returns _ _ _ _ _ Hblk).
        now rewrite (IH k u e (S idx) total trk Hnth Hrun).
      * now apply run_blocks_from_raises_rest with (e := e0).
Qed.

(** While the units keep returning, the loop keeps going. *)
Lemma run_blocks_from_prefix pre : forall rest idx total trk,
  forallb succeeds pre = true ->
  Cli.run_blocks_from idx total (pre ++ rest) false trk
  = after (trace (Cli.run_blocks_from idx total pre false trk))
          (Cli.run_blocks_from (idx + List.length pre) total rest false trk).
Proof.
  induction pre as [|blk pre IH]; intros rest idx total trk Hok.
  - simpl. rewrite Nat.add_0_r. now rewrite after_nil.
  - simpl in Hok. apply andb_prop in Hok. destruct Hok as [Hblk Hok].
    unfold succeeds in Hblk. destruct (run blk) eqn:Hrun; [|discriminate].
    change ((blk :: pre) ++ rest) with (blk :: (pre ++ rest)).
    rewrite !(run_blocks_from_returns _ _ _ _ _ Hrun).
    rewrite (IH rest (S idx) total trk Hok). rewrite after_after. simpl.
    now replace (idx + S (List.length pre)) with (S idx + List.length pre) by lia.
Qed.

(** A plan all of whose units return is run to its end. *)
Lemma run_blocks_from_all_return l : forall idx total trk,
  forallb succeeds l = true ->
  result (Cli.run_blocks_from idx total l false trk) = Return tt.
Proof.
  induction l as [|blk rest IH]; intros idx total trk Hok; [reflexivity|].
  simpl in Hok. apply andb_prop in Hok. destruct Hok as [Hblk Hok].
  unfold succeeds in Hblk. destruct (run blk) eqn:Hrun; [|discriminate].
  rewrite (run_blocks_from_returns _ _ _ _ _ Hrun). simpl. now apply IH.
Qed.

(** A unit that raises makes the loop raise, whether the loop reaches it or
    stops at an earlier unit. *)
Lemma run_blocks_from_some_raise l : forall k u e idx total trk,
  nth_error l k = Some u -> run u = Raises e ->
  exists e', result (Cli.run_blocks_from idx total l false trk) = Raise e'.
Proof.
  induction l as [|blk rest IH]; intros k u e idx total trk Hnth Hrun.
  - destruct k; discriminate.
  - destruct (run blk) as [|e0] eqn:Hblk.
    + destruct k as [|k]; [injection Hnth as ->; congruence|].
      rewrite (run_blocks_from_returns _ _ _ _ _ Hblk). simpl.
      now apply IH with (k := k) (u := u) (e := e).
    + destruct (run_blocks_from_raises idx total blk rest trk e0 Hblk)
        as (e' & logged & -> & _). now exists e'.
Qed.

(** ** Abort on first failure *)

(** C1.  Outside a dry run, if unit [k]'s [run()] raises, the engine raises,
    no unit with an index greater than [k] is run, and no such unit emits an
    [initialized] event; the engine behaves exactly as on the plan cut after
    unit [k]. *)
Theorem abort_on_first_failure (plan : list Block) (k : nat) (u : Block)
    (e : PyException) (trk : Tracker) :
  nth_error plan k = Some u ->
  run u = Raises e ->
  let o := Cli._run_blocks plan false trk in
  (exists e', result o = Raise e')
  /\ (forall j blk, k < j -> ~ In (ERun j blk) (trace o))
  /\ (forall j name ctxs, k < j -> ~ In (EBlockEvent j name initialized ctxs) (trace o))
  /\ o = Cli._run_blocks (firstn (S k) plan) false trk.
Proof.
  intros Hnth Hrun o.
  assert (Hcut : o = Cli._run_blocks (firstn (S k) plan) false trk).
  { unfold o, Cli._run_blocks.
    rewrite (run_blocks_from_cut plan k u e 0 _ trk Hnth Hrun).
    apply run_blocks_from_total. }
  assert (Hbound : forall eff j, In eff (trace o) -> effect_index eff = Some j -> j <= k).
  { intros eff j Hin Hj. rewrite Hcut in Hin. unfold Cli._run_blocks in Hin.
    pose proof (run_blocks_from_indices _ _ _ _ _ _ _ Hin Hj) as Hlt.
    pose proof (firstn_le_length (S k) plan). lia. }
  split; [|split; [|split]].
  - unfold o, Cli._run_blocks. now apply run_blocks_from_some_raise with k u e.
  - intros j blk Hlt Hin. specialize (Hbound _ j Hin eq_refl). lia.
  - intros j name ctxs Hlt Hin. specialize (Hbound _ j Hin eq_refl). lia.
  - exact Hcut.
Qed.

Lemma abort_on_first_failure_witness :
  let o := Cli._run_blocks [Sample.el_gitlab; Sample.el_broken; Sample.dbt_test]
                           false Sample.trk0 in
  (exists e', result o = Raise e')
  /\ (forall j blk, 1 < j -> ~ In (ERun j blk) (trace o))
  /\ (forall j name ctxs, 1 < j -> ~ In (EBlockEvent j name initialized ctxs) (trace o))
  /\ o = Cli._run_blocks (firstn 2 [Sample.el_gitlab; Sample.el_broken; Sample.dbt_test])
                         false Sample.trk0.
Proof.
  apply (abort_on_first_failure
           [Sample.el_gitlab; Sample.el_broken; Sample.dbt_test] 1 Sample.el_broken
           (RunnerError "Loader failed" [0%Z; 1%Z]) Sample.trk0);
    reflexivity.
Defined.

(** ** Failures of a unit *)

(** When every unit before [u] returns, the loop reaches [u]. *)
Lemma run_blocks_reaches (pre : list Block) (u : Block) (post : list Block)
    (trk : Tracker) :
  forallb succeeds pre = true ->
  Cli._run_blocks (pre ++ u :: post) false trk
  = after (trace (Cli._run_blocks pre false trk))
          (Cli.run_blocks_from (List.length pre) (List.length (pre ++ u :: post))
             (u :: post) false trk).
Proof.
  intros Hok. unfold Cli._run_blocks.
  rewrite (run_blocks_from_prefix pre _ _ _ _ Hok).
  f_equal. f_equal. apply run_blocks_from_total.
Qed.

(** Effects of the units before [u] and of [u] itself belong to no later
    unit. *)
Lemma reached_unit_bound (pre : list Block) (trk : Tracker) (last : list Effect) :
  (forall eff j, In eff last -> effect_index eff = Some j -> j = List.length pre) ->
  forall j eff,
    In eff (trace (Cli._run_blocks pre false trk) ++ last) ->
    effect_index eff = Some j -> j <= List.length pre.
Proof.
  intros Hlast j eff Hin Hj. apply in_app_or in Hin. destruct Hin as [Hin | Hin].
  - unfold Cli._run_blocks in Hin.
    pose proof (run_blocks_from_indices _ _ _ _ _ _ _ Hin Hj). lia.
  - rewrite (Hlast _ _ Hin Hj). lia.
Qed.

(** C2.  When the engine reaches a unit whose [run()] raises a
    [RunnerError], it logs the failure with the unit's exit codes, emits the
    unit's [failed] event and raises a [CliError] whose cause is the
    [RunnerError]; nothing is done for the units behind it.  The log entry
    is the error-level entry "Block run completed." with the iteration
    index, the unit's class name, [success=False], the error and its exit
    codes; the message of the [CliError] ends with the text of the
    [RunnerError]. *)
Theorem runner_error_aborts_run (pre : list Block) (u : Block) (post : list Block)
    (msg : string) (codes : list Z) (trk : Tracker) :
  forallb succeeds pre = true ->
  run u = Raises (RunnerError msg codes) ->
  let k := List.length pre in
  let err := RunnerError msg codes in
  let o := Cli._run_blocks (pre ++ u :: post) false trk in
  result o
  = Raise (CliError
             (String.append "Run invocation could not be completed as block failed: "
                            msg)
             (Some err))
  /\ trace o
     = trace (Cli._run_blocks pre false trk)
       ++ [EBlockEvent k (class_name u) initialized (contexts trk ++ [from_block u]);
           ERun k u;
           ELog error "Block run completed."
                [("set_number", LInt k); ("block_type", LStr (class_name u));
                 ("success", LBool false); ("err", LExn err);
                 ("exit_codes", LExitCodes codes)];
           EBlockEvent k (class_name u) failed (contexts trk ++ [from_block u])]
  /\ (forall j eff, In eff (trace o) -> effect_index eff = Some j -> j <= k).
Proof.
  intros Hok Hrun k err o. unfold o.
  rewrite (run_blocks_reaches pre u post trk Hok).
  rewrite (run_blocks_from_runner_error _ _ _ _ _ _ _ Hrun).
  unfold after. cbn [result trace]. split; [reflexivity|split; [reflexivity|]].
  apply reached_unit_bound. intros eff j Hin Hj.
  destruct Hin as [<- | [<- | [<- | [<- | []]]]];
    try discriminate Hj; now injection Hj.
Qed.

Lemma runner_error_aborts_run_witness :
  let err := RunnerError "Loader failed" [0%Z; 1%Z] in
  let own := [AmbientContext "environment"; AmbientContext "project"] in
  let o := Cli._run_blocks ([Sample.el_gitlab] ++ Sample.el_broken :: [Sample.dbt_test])
                           false Sample.trk0 in
  result o
  = Raise (CliError
             "Run invocation could not be completed as block failed: Loader failed"
             (Some err))
  /\ trace o
     = trace (Cli._run_blocks [Sample.el_gitlab] false Sample.trk0)
       ++ [EBlockEvent 1 "ExtractLoadBlocks" initialized
             (own ++ [PluginsTrackingContext
                        [("tap-salesforce", None); ("target-mysql", None)]]);
           ERun 1 Sample.el_broken;
           ELog error "Block run completed."
                [("set_number", LInt 1); ("block_type", LStr "ExtractLoadBlocks");
                 ("success", LBool false); ("err", LExn err);
                 ("exit_codes", LExitCodes [0%Z; 1%Z])];
           EBlockEvent 1 "ExtractLoadBlocks" failed
             (own ++ [PluginsTrackingContext
                        [("tap-salesforce", None); ("target-mysql", None)]])]
  /\ (forall j eff, In eff (trace o) -> effect_index eff = Some j -> j <= 1).
Proof.
  apply (runner_error_aborts_run [Sample.el_gitlab] Sample.el_broken [Sample.dbt_test]
           "Loader failed" [0%Z; 1%Z] Sample.trk0);
    reflexivity.
Defined.

(** C5.  When the engine reaches a unit whose [run()] raises an exception
    that is not a [RunnerError], it emits the unit's [failed] event and
    raises that same exception, not wrapped; nothing is done for the units
    behind it. *)
Theorem other_error_still_emits_failed (pre : list Block) (u : Block)
    (post : list Block) (e : PyException) (trk : Tracker) :
  forallb succeeds pre = true ->
  run u = Raises e ->
  is_RunnerError e = false ->
  let k := List.length pre in
  let o := Cli._run_blocks (pre ++ u :: post) false trk in
  result o = Raise e
  /\ trace o = trace (Cli._run_blocks pre false trk)
               ++ [block_event trk k u initialized; ERun k u;
                   block_event trk k u failed]
  /\ (forall j eff, In eff (trace o) -> effect_index eff = Some j -> j <= k).
Proof.
  intros Hok Hrun Hcls k o. unfold o.
  rewrite (run_blocks_reaches pre u post trk Hok).
  rewrite (run_blocks_from_other_error _ _ _ _ _ _ Hrun Hcls).
  unfold after. cbn [result trace]. split; [reflexivity|split; [reflexivity|]].
  apply reached_unit_bound. intros eff j Hin Hj.
  destruct Hin as [<- | [<- | [<- | []]]];
    try discriminate Hj; now injection Hj.
Qed.

Lemma other_error_still_emits_failed_witness :
  let e := OtherException "FileNotFoundError" "dbt executable not found" in
  let o := Cli._run_blocks ([Sample.el_gitlab] ++ Sample.dbt_crash :: [Sample.dbt_test])
                           false Sample.trk0 in
  result o = Raise e
  /\ trace o = trace (Cli._run_blocks [Sample.el_gitlab] false Sample.trk0)
               ++ [block_event Sample.trk0 1 Sample.dbt_crash initialized;
                   ERun 1 Sample.dbt_crash;
                   block_event Sample.trk0 1 Sample.dbt_crash failed]
  /\ (forall j eff, In eff (trace o) -> effect_index eff = Some j -> j <= 1).
Proof.
  apply (other_error_still_emits_failed [Sample.el_gitlab] Sample.dbt_crash
           [Sample.dbt_test]
           (OtherException "FileNotFoundError" "dbt executable not found")
           Sample.trk0);
    reflexivity.
Defined.

(** ** Block events, unit by unit *)

Lemma unit_events_app N tr1 tr2 :
  unit_events N (tr1 ++ tr2) = unit_events N tr1 ++ unit_events N tr2.
Proof.
  induction tr1 as [|eff tr1 IH]; [reflexivity|].
  destruct eff; simpl; auto. destruct (Nat.eqb idx N); simpl; now rewrite IH.
Qed.

Lemma block_event_indices_app tr1 tr2 :
  block_event_indices (tr1 ++ tr2)
  = block_event_indices tr1 ++ block_event_indices tr2.
Proof.
  induction tr1 as [|eff tr1 IH]; [reflexivity|].
  destruct eff; simpl; auto. now rewrite IH.
Qed.

(** Log entries emit nothing on the tracker. *)
Lemma logged_silent logged N :
  (forall eff, In eff logged -> exists l s f, eff = ELog l s f) ->
  unit_events N logged = [] /\ block_event_indices logged = [].
Proof.
  induction logged as [|eff logged IH]; intros Hlog; [now split|].
  destruct (Hlog eff (or_introl eq_refl)) as (l & s & f & ->). simpl.
  apply IH. intros eff' Hin. apply Hlog. now right.
Qed.

Lemma block_event_indices_in tr j :
  In j (block_event_indices tr) ->
  exists eff, In eff tr /\ effect_index eff = Some j.
Proof.
  induction tr as [|eff tr IH]; intros Hin; [destruct Hin|].
  destruct eff; simpl in Hin;
    try (destruct (IH Hin) as (eff' & H1 & H2); exists eff'; split; [now right|exact H2]).
  destruct Hin as [<- | Hin].
  - eexists. split; [now left|reflexivity].
  - destruct (IH Hin) as (eff' & H1 & H2). exists eff'. split; [now right|exact H2].
Qed.

Lemma unit_events_in tr N ev :
  In ev (unit_events N tr) ->
  exists name attached, In (EBlockEvent N name ev attached) tr.
Proof.
  induction tr as [|eff tr IH]; intros Hin; [destruct Hin|].
  destruct eff; simpl in Hin;
    try (destruct (IH Hin) as (n & a & H); exists n, a; now right).
  destruct (Nat.eqb_spec idx N) as [-> | Hne].
  - destruct Hin as [<- | Hin].
    + eexists _, _. now left.
    + destruct (IH Hin) as (n & a & H). exists n, a. now right.
  - destruct (IH Hin) as (n & a & H). exists n, a. now right.
Qed.

(** Only the units the loop goes through emit block events. *)
Lemma unit_events_outside l idx total dry_run trk N :
  N < idx \/ idx + List.length l <= N ->
  unit_events N (trace (Cli.run_blocks_from idx total l dry_run trk)) = [].
Proof.
  intros Hout.
  destruct (unit_events N (trace (Cli.run_blocks_from idx total l dry_run trk)))
    as [|ev evs] eqn:Hev; [reflexivity|].
  assert (Hin : In ev (unit_events N (trace (Cli.run_blocks_from idx total l dry_run trk))))
    by (rewrite Hev; now left).
  apply unit_events_in in Hin. destruct Hin as (name & attached & Hin).
  pose proof (run_blocks_from_indices _ _ _ _ _ _ N Hin eq_refl). lia.
Qed.

Lemma unit_events_before l idx total dry_run trk N :
  N < idx ->
  unit_events N (trace (Cli.run_blocks_from idx total l dry_run trk)) = [].
Proof. intros Hlt. apply unit_events_outside. now left. Qed.

(** The block events of one unit outside a dry run. *)
Lemma unit_events_run l : forall N u idx total trk,
  nth_error l N = Some u ->
  unit_events (idx + N) (trace (Cli.run_blocks_from idx total l false trk))
  = if forallb succeeds (firstn N l) then
      if succeeds u then [initialized; completed] else [initialized; failed]
    else [].
Proof.
  induction l as [|blk rest IH]; intros N u idx total trk Hnth.
  - destruct N; discriminate.
  - destruct N as [|N].
    + injection Hnth as ->. rewrite Nat.add_0_r. simpl forallb. unfold succeeds.
      destruct (run u) as [|e] eqn:Hrun.
      * rewrite (run_blocks_from_returns _ _ _ _ _ Hrun). simpl.
        rewrite Nat.eqb_refl. rewrite unit_events_before by lia. reflexivity.
      * destruct (run_blocks_from_raises idx total u rest trk e Hrun)
          as (e' & logged & -> & Hlog).
        simpl. rewrite Nat.eqb_refl. rewrite unit_events_app.
        rewrite (proj1 (logged_silent logged idx Hlog)). simpl.
        now rewrite Nat.eqb_refl.
    + simpl in Hnth. simpl firstn. simpl forallb.
      assert (Hne : Nat.eqb idx (idx + S N) = false) by (apply Nat.eqb_neq; lia).
      unfold succeeds at 1. destruct (run blk) as [|e] eqn:Hrun.
      * rewrite (run_blocks_from_returns _ _ _ _ _ Hrun). simpl. rewrite Hne.
        replace (idx + S N) with (S idx + N) by lia. now apply IH.
      * destruct (run_blocks_from_raises idx total blk rest trk e Hrun)
          as (e' & logged & -> & Hlog).
        simpl. rewrite Hne. rewrite unit_events_app.
        rewrite (proj1 (logged_silent logged _ Hlog)). simpl. now rewrite Hne.
Qed.

(** The block events of one unit in a dry run. *)
Lemma unit_events_dry l : forall N u idx total trk,
  nth_error l N = Some u ->
  unit_events (idx + N) (trace (Cli.run_blocks_from idx total l true trk))
  = [initialized].
Proof.
  induction l as [|blk rest IH]; intros N u idx total trk Hnth.
  - destruct N; discriminate.
  - rewrite run_blocks_from_dry. simpl. destruct N as [|N].
    + rewrite Nat.add_0_r, Nat.eqb_refl. now rewrite unit_events_before by lia.
    + assert (Hne : Nat.eqb idx (idx + S N) = false) by (apply Nat.eqb_neq; lia).
      rewrite Hne. replace (idx + S N) with (S idx + N) by lia.
      simpl in Hnth. now apply IH with (u := u).
Qed.

(** Block events are emitted in the order of the plan. *)
Lemma block_event_indices_sorted l : forall idx total dry_run trk,
  StronglySorted le
    (block_event_indices (trace (Cli.run_blocks_from idx total l dry_run trk))).
Proof.
  induction l as [|blk rest IH]; intros idx total dry_run trk; [constructor|].
  assert (Hge : Forall (le idx)
            (block_event_indices
               (trace (Cli.run_blocks_from (S idx) total rest dry_run trk)))).
  { apply Forall_forall. intros j Hj. apply block_event_indices_in in Hj.
    destruct Hj as (eff & Hin & Hidx).
    pose proof (run_blocks_from_indices _ _ _ _ _ _ _ Hin Hidx). lia. }
  destruct dry_run.
  - rewrite run_blocks_from_dry. simpl. constructor; [apply IH|exact Hge].
  - destruct (run blk) as [|e] eqn:Hrun.
    + rewrite (run_blocks_from_returns _ _ _ _ _ Hrun). simpl.
      constructor; [constructor; [apply IH|exact Hge]|].
      constructor; [lia|exact Hge].
    + destruct (run_blocks_from_raises idx total blk rest trk e Hrun)
        as (e' & logged & -> & Hlog).
      simpl. rewrite block_event_indices_app.
      rewrite (proj2 (logged_silent logged 0 Hlog)). simpl.
      repeat constructor.
Qed.

(** ** Per-unit event ordering *)

(** C3, as worded, fails for a dry run: the single unit of the plan emits
    [initialized] and neither [completed] nor [failed]. *)
Lemma ordering_as_specified_fails_in_dry_run :
  ~ ordering_as_specified [Sample.dbt_test] true Sample.trk0.
Proof.
  intros H. specialize (H 0 (or_introl eq_refl)).
  destruct H as [H | H]; discriminate H.
Qed.

(** C3, amended.  Outside a dry run, a unit that the engine starts (every
    unit before it returned) emits [initialized] followed by exactly one of
    [completed], when its [run()] returned, and [failed], when it raised; a
    unit behind a unit that raised emits nothing; in a dry run every unit
    emits [initialized] only.  In every mode the block events come in the
    order of the plan, so those of unit [N] precede those of unit [N+1], and
    [completed] is never emitted for a unit whose [run()] raises.  The
    ordering as the specification words it therefore holds of every plan
    that is not a dry run. *)
Theorem per_unit_event_ordering (plan : list Block) (dry_run : bool)
    (trk : Tracker) (N : nat) (u : Block) :
  nth_error plan N = Some u ->
  let tr := trace (Cli._run_blocks plan dry_run trk) in
  unit_events N tr
  = (if dry_run then [initialized]
     else if forallb succeeds (firstn N plan) then
            if succeeds u then [initialized; completed] else [initialized; failed]
          else [])
  /\ StronglySorted le (block_event_indices tr)
  /\ (succeeds u = false -> ~ In completed (unit_events N tr))
  /\ ordering_as_specified plan false trk.
Proof.
  intros Hnth tr.
  assert (Hev : unit_events N tr
                = (if dry_run then [initialized]
                   else if forallb succeeds (firstn N plan) then
                          if succeeds u then [initialized; completed]
                          else [initialized; failed]
                        else [])).
  { unfold tr, Cli._run_blocks. destruct dry_run.
    - apply (unit_events_dry plan N u 0 _ trk Hnth).
    - apply (unit_events_run plan N u 0 _ trk Hnth). }
  split; [exact Hev|split; [|split]].
  - apply block_event_indices_sorted.
  - intros Hfail. rewrite Hev, Hfail.
    destruct dry_run; [|destruct (forallb succeeds (firstn N plan))];
      simpl; intuition discriminate.
  - intros M Hin. unfold Cli._run_blocks in *.
    destruct (nth_error plan M) as [v|] eqn:HM.
    + pose proof (unit_events_run plan M v 0 (List.length plan) trk HM) as HevM.
      change (0 + M) with M in HevM. rewrite HevM in *.
      destruct (forallb succeeds (firstn M plan)); [|exact (False_ind _ Hin)].
      destruct (succeeds v); auto.
    + apply nth_error_None in HM.
      rewrite unit_events_outside in Hin by (right; simpl; lia).
      exact (False_ind _ Hin).
Qed.

Lemma per_unit_event_ordering_witness :
  let tr := trace (Cli._run_blocks [Sample.el_gitlab; Sample.el_broken; Sample.dbt_test]
                                   false Sample.trk0) in
  unit_events 1 tr = [initialized; failed]
  /\ StronglySorted le (block_event_indices tr)
  /\ (succeeds Sample.el_broken = false -> ~ In completed (unit_events 1 tr))
  /\ ordering_as_specified [Sample.el_gitlab; Sample.el_broken; Sample.dbt_test]
                           false Sample.trk0.
Proof.
  apply (per_unit_event_ordering
           [Sample.el_gitlab; Sample.el_broken; Sample.dbt_test] false Sample.trk0
           1 Sample.el_broken).
  reflexivity.
Defined.

(** ** Dry run *)

Lemma enumerate_from_cons idx blk rest :
  enumerate_from idx (blk :: rest) = (idx, blk) :: enumerate_from (S idx) rest.
Proof. reflexivity. Qed.

Lemma dry_run_outcome l : forall idx total trk,
  Cli.run_blocks_from idx total l true trk
  = mkOutcome (Return tt) trk
      (flat_map (dry_iteration trk total) (enumerate_from idx l)).
Proof.
  induction l as [|blk rest IH]; intros idx total trk; [reflexivity|].
  rewrite run_blocks_from_dry, IH, enumerate_from_cons. reflexivity.
Qed.

Lemma dry_run_quiet l : forall idx total trk eff,
  In eff (flat_map (dry_iteration trk total) (enumerate_from idx l)) ->
  is_run eff = false /\ is_terminal eff = false.
Proof.
  induction l as [|blk rest IH]; intros idx total trk eff Hin; [destruct Hin|].
  rewrite enumerate_from_cons in Hin. simpl in Hin.
  destruct Hin as [<- | [<- | Hin]]; [now split | now split | eauto].
Qed.

Lemma dry_run_count l : forall idx total trk,
  List.length (filter is_initialized
                 (flat_map (dry_iteration trk total) (enumerate_from idx l)))
  = List.length l.
Proof.
  induction l as [|blk rest IH]; intros idx total trk; [reflexivity|].
  rewrite enumerate_from_cons. simpl. f_equal. apply IH.
Qed.

(** C4.  A dry run goes through the whole plan in order and returns: for
    each unit it emits the [initialized] event and logs the unit's type and
    what it is made of, and it does nothing else; no [run()] is awaited and
    no [completed] or [failed] event is emitted.  The log entry of unit
    [idx] of [n] is the info-level entry "Dry run, but would have run block
    idx+1/n." with the unit's class name as [block_type] and, as
    [comprised_of], the identifiers of the plugins of a block set or
    "plugin:command" for a command block. *)
Theorem dry_run_only_initializes (plan : list Block) (trk : Tracker) :
  let o := Cli._run_blocks plan true trk in
  result o = Return tt
  /\ trace o
     = flat_map
         (fun '(idx, blk) =>
            [EBlockEvent idx (class_name blk) initialized
               (contexts trk ++ [from_block blk]);
             ELog info
               (String.append "Dry run, but would have run block "
                  (String.append (NilEmpty.string_of_uint (Nat.to_uint (idx + 1)))
                     (String.append "/"
                        (String.append
                           (NilEmpty.string_of_uint (Nat.to_uint (List.length plan)))
                           "."))))
               [("block_type", LStr (class_name blk));
                ("comprised_of",
                 match shape blk with
                 | BlockSet plugins => LStrList plugins
                 | PluginCommandBlock sid cmd =>
                     LStr (String.append sid (String.append ":" cmd))
                 end)]])
         (enumerate_from 0 plan)
  /\ List.length (filter is_initialized (trace o)) = List.length plan
  /\ (forall N u, nth_error plan N = Some u -> unit_events N (trace o) = [initialized])
  /\ (forall eff, In eff (trace o) -> is_run eff = false /\ is_terminal eff = false).
Proof.
  intros o. unfold o, Cli._run_blocks. rewrite dry_run_outcome.
  cbn [result trace].
  split; [reflexivity|split; [|split; [apply dry_run_count|split]]].
  - apply flat_map_ext. intros [idx blk]. reflexivity.
  - intros N u Hnth.
    pose proof (unit_events_dry plan N u 0 (List.length plan) trk Hnth) as H.
    now rewrite dry_run_outcome in H.
  - apply dry_run_quiet.
Qed.

Lemma dry_run_only_initializes_witness :
  let own := [AmbientContext "environment"; AmbientContext "project"] in
  let tr := trace (Cli._run_blocks [Sample.el_broken; Sample.dbt_crash] true
                                   Sample.trk0) in
  tr = [EBlockEvent 0 "ExtractLoadBlocks" initialized
          (own ++ [PluginsTrackingContext
                     [("tap-salesforce", None); ("target-mysql", None)]]);
        ELog info "Dry run, but would have run block 1/2."
             [("block_type", LStr "ExtractLoadBlocks");
              ("comprised_of", LStrList ["tap-salesforce"; "target-mysql"])];
        EBlockEvent 1 "InvokerCommand" initialized
          (own ++ [PluginsTrackingContext [("dbt", Some "run")]]);
        ELog info "Dry run, but would have run block 2/2."
             [("block_type", LStr "InvokerCommand");
              ("comprised_of", LStr "dbt:run")]]
  /\ unit_events 1 tr = [initialized].
Proof.
  destruct (dry_run_only_initializes [Sample.el_broken; Sample.dbt_crash] Sample.trk0)
    as (_ & Htrace & _ & Hevents & _).
  split; [exact Htrace|].
  apply (Hevents 1 Sample.dbt_crash). reflexivity.
Defined.

(** ** Scoped tracking contexts *)

(** Every block event comes from a unit of the plan, names that unit's
    class and was emitted with that unit's context attached on top of the
    tracker's own contexts. *)
Lemma block_event_origin l : forall idx total dry_run trk i name ev attached,
  In (EBlockEvent i name ev attached)
     (trace (Cli.run_blocks_from idx total l dry_run trk)) ->
  exists n blk,
    i = idx + n /\ nth_error l n = Some blk
    /\ name = class_name blk /\ attached = contexts trk ++ [from_block blk].
Proof.
  induction l as [|blk rest IH]; intros idx total dry_run trk i name ev attached Hin.
  - destruct Hin.
  - assert (Hrest : In (EBlockEvent i name ev attached)
                       (trace (Cli.run_blocks_from (S idx) total rest dry_run trk)) ->
                    exists n b, i = idx + n /\ nth_error (blk :: rest) n = Some b
                      /\ name = class_name b /\ attached = contexts trk ++ [from_block b]).
    { intros H. destruct (IH _ _ _ _ _ _ _ _ H) as (n & b & -> & Hn & Hname & Hatt).
      exists (S n), b. repeat split; auto; lia. }
    assert (Hhere : forall ev', EBlockEvent i name ev attached = block_event trk idx blk ev' ->
                    exists n b, i = idx + n /\ nth_error (blk :: rest) n = Some b
                      /\ name = class_name b /\ attached = contexts trk ++ [from_block b]).
    { intros ev' H. unfold block_event in H. injection H as -> -> -> ->.
      exists 0, blk. repeat split; auto. }
    destruct dry_run.
    + rewrite run_blocks_from_dry in Hin. simpl in Hin.
      destruct Hin as [H | [H | Hin]]; [symmetry in H; eauto | discriminate | auto].
    + destruct (run blk) as [|e] eqn:Hrun.
      * rewrite (run_blocks_from_returns _ _ _ _ _ Hrun) in Hin. simpl in Hin.
        destruct Hin as [H | [H | [H | [H | Hin]]]];
          [symmetry in H; eauto | discriminate | discriminate
           | symmetry in H; eauto | auto].
      * destruct (run_blocks_from_raises idx total blk rest trk e Hrun)
          as (e' & logged & Heq & Hlog).
        rewrite Heq in Hin. simpl in Hin.
        destruct Hin as [H | [H | Hin]]; [symmetry in H; eauto | discriminate |].
        apply in_app_or in Hin. destruct Hin as [Hin | [H | []]].
        -- destruct (Hlog _ Hin) as (lv & s & f & H). discriminate.
        -- symmetry in H; eauto.
Qed.

(** ** The command *)

(** The loop only logs, runs units and emits block events. *)
Lemma run_blocks_from_effects l : forall idx total dry_run trk eff,
  In eff (trace (Cli.run_blocks_from idx total l dry_run trk)) ->
  (exists i name ev attached, eff = EBlockEvent i name ev attached)
  \/ (exists i blk, eff = ERun i blk)
  \/ (exists lv s f, eff = ELog lv s f).
Proof.
  induction l as [|blk rest IH]; intros idx total dry_run trk eff Hin.
  - destruct Hin.
  - destruct dry_run.
    + rewrite run_blocks_from_dry in Hin. simpl in Hin.
      destruct Hin as [<- | [<- | Hin]]; [left | right; right | eauto];
        unfold block_event, Cli.dry_run_log_entry; eauto 6.
    + destruct (run blk) as [|e] eqn:Hrun.
      * rewrite (run_blocks_from_returns _ _ _ _ _ Hrun) in Hin. simpl in Hin.
        destruct Hin as [<- | [<- | [<- | [<- | Hin]]]];
          [left | right; left | right; right | left | eauto];
          unfold block_event, Cli.completed_log_entry; eauto 6.
      * destruct (run_blocks_from_raises idx total blk rest trk e Hrun)
          as (e' & logged & Heq & Hlog).
        rewrite Heq in Hin. simpl in Hin.
        destruct Hin as [<- | [<- | Hin]];
          [left; unfold block_event; eauto 6 | right; left; eauto |].
        apply in_app_or in Hin. destruct Hin as [Hin | [<- | []]].
        -- right; right. now apply Hlog.
        -- left; unfold block_event; eauto 6.
Qed.

Lemma run_blocks_no_run_level_event plan dry_run trk :
  filter is_run_level_event (trace (Cli._run_blocks plan dry_run trk)) = [].
Proof.
  unfold Cli._run_blocks.
  pose proof (run_blocks_from_effects plan 0 (List.length plan) dry_run trk) as H.
  induction (trace (Cli.run_blocks_from 0 (List.length plan) plan dry_run trk))
    as [|eff tr IH]; [reflexivity|].
  simpl. destruct (H eff (or_introl eq_refl))
    as [(i & n & ev & a & ->) | [(i & b & ->) | (lv & s & f & ->)]];
    simpl; apply IH; intros eff' Hin; apply H; now right.
Qed.

Lemma dry_run_log_level_outcome c dry_run trk :
  Cli.dry_run_log_level c dry_run trk
  = mkOutcome (Return tt) trk (log_level_effects c dry_run).
Proof.
  unfold log_level_effects, Cli.dry_run_log_level.
  destruct dry_run; [|reflexivity].
  destruct (negb (truthy (dict_get (config_override c) "cli.log_level")));
    reflexivity.
Qed.

(** Adjusting the log level sends nothing to the tracker and runs
    nothing. *)
Lemma log_level_effects_quiet c dry_run eff :
  In eff (log_level_effects c dry_run) ->
  is_tracker_event eff = false /\ is_run eff = false /\ is_block_event eff = false.
Proof.
  unfold log_level_effects, Cli.dry_run_log_level.
  destruct dry_run; [|intros []].
  destruct (negb (truthy (dict_get (config_override c) "cli.log_level")));
    simpl; intuition (subst; reflexivity).
Qed.

Lemma filter_quiet (f : Effect -> bool) (tr : list Effect) :
  (forall eff, In eff tr -> f eff = false) -> filter f tr = [].
Proof.
  induction tr as [|eff tr IH]; intros H; [reflexivity|].
  simpl. rewrite (H eff (or_introl eq_refl)). apply IH.
  intros eff' Hin. apply H. now right.
Qed.

Lemma bind_emit {B} (e : Effect) (k : unit -> Py B) (trk : Tracker) :
  bind (emit e) k trk = after [e] (k tt trk).
Proof. reflexivity. Qed.

Lemma bind_track_command_event {B} (ev : CliEvent) (k : unit -> Py B) (trk : Tracker) :
  bind (track_command_event ev) k trk
  = after [ECommandEvent ev (contexts trk)] (k tt trk).
Proof. reflexivity. Qed.

Lemma bind_outcome {A B} (m : Py A) (k : A -> Py B) (trk : Tracker) :
  bind m k trk
  = match result (m trk) with
    | Return a => after (trace (m trk)) (k a (tracker_after (m trk)))
    | Raise e => mkOutcome (Raise e) (tracker_after (m trk)) (trace (m trk))
    end.
Proof. reflexivity. Qed.

Lemma try_except_outcome {A} (body : Py A) (handler : PyException -> Py A) trk :
  try_except body handler trk
  = match result (body trk) with
    | Return _ => body trk
    | Raise e => after (trace (body trk)) (handler e (tracker_after (body trk)))
    end.
Proof. reflexivity. Qed.

(** Lines 99-110: parsing, the empty plan and the parser's failure. *)
Lemma parse_outcome c full_refresh no_state_update force blocks trk :
  try_except
    (parsed_blocks <- Cli.parse_blocks c blocks full_refresh no_state_update force ;;
     match parsed_blocks with
     | [] =>
         track_command_event cli_aborted ;;
         log info "No valid blocks found." [] ;;
         ret None
     | _ :: _ => ret (Some parsed_blocks)
     end)
    (fun parser_err => track_command_event cli_aborted ;; raise parser_err) trk
  = after [EFindBlocks blocks full_refresh no_state_update force]
      match find_blocks c blocks full_refresh no_state_update force with
      | Raise parser_err =>
          mkOutcome (Raise parser_err) trk [ECommandEvent cli_aborted (contexts trk)]
      | Return [] =>
          mkOutcome (Return None) trk
            [ECommandEvent cli_aborted (contexts trk);
             ELog info "No valid blocks found." []]
      | Return parsed_blocks => mkOutcome (Return (Some parsed_blocks)) trk []
      end.
Proof.
  unfold Cli.parse_blocks.
  destruct (find_blocks c blocks full_refresh no_state_update force)
    as [[|blk rest] | parser_err];
    reflexivity.
Qed.

(** Lines 112-123: validation, the loop and the run-level event. *)
Lemma validate_and_run_outcome c dry_run blocks parsed_blocks trk :
  Cli.validate_and_run c dry_run blocks parsed_blocks trk
  = if validate_block_sets c parsed_blocks then
      let ob := Cli._run_blocks parsed_blocks dry_run trk in
      after [EValidate parsed_blocks;
             ELog debug "All ExtractLoadBlocks validated, starting execution." []]
        match result ob with
        | Return _ =>
            mkOutcome (Return tt) trk
              (trace ob ++ [ECommandEvent cli_completed (contexts trk);
                            ELegacyTrackRun blocks])
        | Raise err =>
            mkOutcome (Raise err) trk
              (trace ob ++ [ECommandEvent cli_failed (contexts trk)])
        end
    else
      mkOutcome
        (Raise (CliError "Some ExtractLoadBlocks set failed validation." None))
        trk
        [EValidate parsed_blocks; ECommandEvent cli_aborted (contexts trk)].
Proof.
  unfold Cli.validate_and_run. rewrite bind_emit.
  destruct (validate_block_sets c parsed_blocks); [|reflexivity].
  unfold log. rewrite bind_emit, after_after, bind_outcome, try_except_outcome.
  pose proof (run_blocks_from_tracker parsed_blocks 0
                (List.length parsed_blocks) dry_run trk) as Htrk.
  fold (Cli._run_blocks parsed_blocks dry_run trk) in Htrk.
  cbv zeta.
  destruct (Cli._run_blocks parsed_blocks dry_run trk) as [r t tr].
  cbn [result tracker_after trace] in *. subst t.
  destruct r as [[]|err]; reflexivity.
Qed.

(** The whole command, path by path. *)
Lemma run_outcome c dry_run full_refresh no_state_update force blocks trk :
  Cli.run c dry_run full_refresh no_state_update force blocks trk
  = after (log_level_effects c dry_run
           ++ [EFindBlocks blocks full_refresh no_state_update force])
      match find_blocks c blocks full_refresh no_state_update force with
      | Raise parser_err =>
          mkOutcome (Raise parser_err) trk [ECommandEvent cli_aborted (contexts trk)]
      | Return [] =>
          mkOutcome (Return tt) trk
            [ECommandEvent cli_aborted (contexts trk);
             ELog info "No valid blocks found." []]
      | Return parsed_blocks =>
          if validate_block_sets c parsed_blocks then
            let ob := Cli._run_blocks parsed_blocks dry_run trk in
            after [EValidate parsed_blocks;
                   ELog debug "All ExtractLoadBlocks validated, starting execution." []]
              match result ob with
              | Return _ =>
                  mkOutcome (Return tt) trk
                    (trace ob ++ [ECommandEvent cli_completed (contexts trk);
                                  ELegacyTrackRun blocks])
              | Raise err =>
                  mkOutcome (Raise err) trk
                    (trace ob ++ [ECommandEvent cli_failed (contexts trk)])
              end
          else
            mkOutcome
              (Raise (CliError "Some ExtractLoadBlocks set failed validation." None))
              trk
              [EValidate parsed_blocks; ECommandEvent cli_aborted (contexts trk)]
      end.
Proof.
  unfold Cli.run. rewrite bind_outcome, dry_run_log_level_outcome.
  cbn [result tracker_after trace]. rewrite <- after_after. f_equal.
  rewrite bind_outcome, parse_outcome.
  destruct (find_blocks c blocks full_refresh no_state_update force)
    as [[|blk rest] | parser_err]; try reflexivity.
  cbn [after result tracker_after trace app]. rewrite validate_and_run_outcome.
  unfold after. cbn [app]. reflexivity.
Qed.

(** ** The paths of the command *)

Section Command.

Variable c : Collaborators.
Variables dry_run full_refresh no_state_update force : bool.
Variable blocks : list string.
Variable trk : Tracker.

Let o := Cli.run c dry_run full_refresh no_state_update force blocks trk.
Let parsing := EFindBlocks blocks full_refresh no_state_update force.

(** Filtering the effects of the log-level adjustment for tracker events
    or for runs leaves nothing. *)
Lemma log_level_effects_no_event :
  filter is_tracker_event (log_level_effects c dry_run) = [].
Proof.
  apply filter_quiet. intros eff H. apply (log_level_effects_quiet c dry_run eff H).
Qed.

Lemma log_level_effects_no_run :
  filter is_run (log_level_effects c dry_run) = [].
Proof.
  apply filter_quiet. intros eff H. apply (log_level_effects_quiet c dry_run eff H).
Qed.

Lemma log_level_effects_no_run_level_event :
  filter is_run_level_event (log_level_effects c dry_run) = [].
Proof.
  apply filter_quiet. intros eff H.
  destruct (log_level_effects_quiet c dry_run eff H) as (Hev & _).
  destruct eff; try reflexivity; discriminate.
Qed.

Ltac filter_trace :=
  rewrite !filter_app;
  rewrite ?log_level_effects_no_event, ?log_level_effects_no_run,
    ?log_level_effects_no_run_level_event.

(** C6.  Once the plan is parsed, the validator is called on the whole
    plan before anything else happens, so before any unit is run; when it
    rejects the plan, the command emits the run-level [aborted] event and
    raises a [CliError], no unit is run and no block event is emitted. *)
Theorem validation_precedes_execution (parsed_blocks : list Block) :
  find_blocks c blocks full_refresh no_state_update force = Return parsed_blocks ->
  parsed_blocks <> [] ->
  (exists rest,
      trace o = log_level_effects c dry_run
                ++ [parsing; EValidate parsed_blocks] ++ rest)
  /\ (validate_block_sets c parsed_blocks = false ->
      result o = Raise (CliError "Some ExtractLoadBlocks set failed validation." None)
      /\ trace o = log_level_effects c dry_run
                   ++ [parsing; EValidate parsed_blocks;
                       ECommandEvent cli_aborted (contexts trk)]
      /\ filter is_tracker_event (trace o) = [ECommandEvent cli_aborted (contexts trk)]
      /\ filter is_run (trace o) = []).
Proof.
  intros Hparse Hne. unfold o. rewrite run_outcome, Hparse.
  destruct parsed_blocks as [|blk rest]; [congruence|].
  destruct (validate_block_sets c (blk :: rest)).
  - split; [|discriminate].
    cbv zeta. unfold after. cbn [result tracker_after trace].
    eexists. rewrite <- !app_assoc. cbn [app]. reflexivity.
  - unfold after. cbn [result tracker_after trace].
    rewrite <- !app_assoc. cbn [app].
    split; [eexists; reflexivity|]. intros _.
    split; [reflexivity|split; [reflexivity|]].
    filter_trace. split; reflexivity.
Qed.

(** C7.  When the block parser raises, the command emits the run-level
    [aborted] event, which is the only event the tracker receives, and
    raises the parser's exception; no unit is run. *)
Theorem parser_error_aborts (parser_err : PyException) :
  find_blocks c blocks full_refresh no_state_update force = Raise parser_err ->
  result o = Raise parser_err
  /\ trace o = log_level_effects c dry_run
               ++ [parsing; ECommandEvent cli_aborted (contexts trk)]
  /\ filter is_tracker_event (trace o) = [ECommandEvent cli_aborted (contexts trk)]
  /\ filter is_run (trace o) = [].
Proof.
  intros Hparse. unfold o. rewrite run_outcome, Hparse.
  unfold after. cbn [result tracker_after trace].
  rewrite <- !app_assoc. cbn [app].
  split; [reflexivity|split; [reflexivity|]].
  filter_trace. split; reflexivity.
Qed.

(** C9.  When the parser finds no block, the command emits the run-level
    [aborted] event, logs that no valid blocks were found and returns; no
    unit is run, and the tracker receives no block event and no run-level
    [completed] event. *)
Theorem empty_plan_aborts :
  find_blocks c blocks full_refresh no_state_update force = Return [] ->
  result o = Return tt
  /\ trace o = log_level_effects c dry_run
               ++ [parsing; ECommandEvent cli_aborted (contexts trk);
                   ELog info "No valid blocks found." []]
  /\ filter is_tracker_event (trace o) = [ECommandEvent cli_aborted (contexts trk)]
  /\ filter is_run (trace o) = [].
Proof.
  intros Hparse. unfold o. rewrite run_outcome, Hparse.
  unfold after. cbn [result tracker_after trace].
  rewrite <- !app_assoc. cbn [app].
  split; [reflexivity|split; [reflexivity|]].
  filter_trace. split; reflexivity.
Qed.

(** C10.  With a parsed, non-empty and validated plan the command runs the
    loop; when the loop returns, which a dry run always does without
    running any unit, the command emits the run-level [completed] event and
    then calls the legacy tracker with the tokens it was given; when the
    loop raises, it emits the run-level [failed] event instead and raises
    the same exception.  No other run-level event is emitted. *)
Theorem run_level_completion (parsed_blocks : list Block) :
  find_blocks c blocks full_refresh no_state_update force = Return parsed_blocks ->
  parsed_blocks <> [] ->
  validate_block_sets c parsed_blocks = true ->
  let ob := Cli._run_blocks parsed_blocks dry_run trk in
  trace o = log_level_effects c dry_run
            ++ [parsing; EValidate parsed_blocks;
                ELog debug "All ExtractLoadBlocks validated, starting execution." []]
            ++ trace ob
            ++ match result ob with
               | Return _ => [ECommandEvent cli_completed (contexts trk);
                              ELegacyTrackRun blocks]
               | Raise _ => [ECommandEvent cli_failed (contexts trk)]
               end
  /\ result o = result ob
  /\ filter is_run_level_event (trace o)
     = match result ob with
       | Return _ => [ECommandEvent cli_completed (contexts trk)]
       | Raise _ => [ECommandEvent cli_failed (contexts trk)]
       end
  /\ (dry_run = true -> result ob = Return tt /\ filter is_run (trace o) = []).
Proof.
  intros Hparse Hne Hval ob.
  assert (Htrace : trace o = log_level_effects c dry_run
            ++ [parsing; EValidate parsed_blocks;
                ELog debug "All ExtractLoadBlocks validated, starting execution." []]
            ++ trace ob
            ++ match result ob with
               | Return _ => [ECommandEvent cli_completed (contexts trk);
                              ELegacyTrackRun blocks]
               | Raise _ => [ECommandEvent cli_failed (contexts trk)]
               end
          /\ result o = result ob).
  { unfold o. rewrite run_outcome, Hparse.
    destruct parsed_blocks as [|blk rest]; [congruence|].
    rewrite Hval. cbv zeta. fold ob. unfold after.
    destruct (result ob) as [[]|err]; cbn [result tracker_after trace];
      rewrite <- !app_assoc; cbn [app]; split; reflexivity. }
  destruct Htrace as [Htrace Hres].
  split; [exact Htrace|split; [exact Hres|split]].
  - rewrite Htrace. filter_trace.
    unfold ob. rewrite run_blocks_no_run_level_event.
    destruct (result (Cli._run_blocks parsed_blocks dry_run trk)); reflexivity.
  - intros Hdry. rewrite Htrace. filter_trace. unfold ob, Cli._run_blocks.
    rewrite Hdry, dry_run_outcome. cbn [result trace].
    rewrite (filter_quiet is_run (flat_map _ _))
      by (intros eff H; apply (dry_run_quiet _ _ _ _ _ H)).
    split; reflexivity.
Qed.

End Command.

Lemma validation_precedes_execution_witness :
  let o := Cli.run Sample.rejecting true false false false Sample.tokens Sample.trk0 in
  result o = Raise (CliError "Some ExtractLoadBlocks set failed validation." None)
  /\ filter is_tracker_event (trace o) = [ECommandEvent cli_aborted (contexts Sample.trk0)]
  /\ filter is_run (trace o) = [].
Proof.
  destruct (validation_precedes_execution Sample.rejecting true false false false
              Sample.tokens Sample.trk0 [Sample.el_gitlab; Sample.dbt_test])
    as [_ H]; [reflexivity | discriminate |].
  destruct (H eq_refl) as (Hres & _ & Hev & Hrun).
  exact (conj Hres (conj Hev Hrun)).
Defined.

Lemma parser_error_aborts_witness :
  let o := Cli.run Sample.accepting false true false false ["tap-unknown"] Sample.trk0 in
  result o = Raise (OtherException "ClickException" "Block not found")
  /\ trace o = log_level_effects Sample.accepting false
               ++ [EFindBlocks ["tap-unknown"] true false false;
                   ECommandEvent cli_aborted (contexts Sample.trk0)]
  /\ filter is_tracker_event (trace o) = [ECommandEvent cli_aborted (contexts Sample.trk0)]
  /\ filter is_run (trace o) = [].
Proof.
  apply (parser_error_aborts Sample.accepting false true false false ["tap-unknown"]
           Sample.trk0 (OtherException "ClickException" "Block not found")).
  reflexivity.
Defined.

Lemma empty_plan_aborts_witness :
  let o := Cli.run Sample.accepting true false false false [] Sample.trk0 in
  result o = Return tt
  /\ trace o = log_level_effects Sample.accepting true
               ++ [EFindBlocks [] false false false;
                   ECommandEvent cli_aborted (contexts Sample.trk0);
                   ELog info "No valid blocks found." []]
  /\ filter is_tracker_event (trace o) = [ECommandEvent cli_aborted (contexts Sample.trk0)]
  /\ filter is_run (trace o) = [].
Proof.
  apply (empty_plan_aborts Sample.accepting true false false false [] Sample.trk0).
  reflexivity.
Defined.

Lemma run_level_completion_witness :
  let ob := Cli._run_blocks [Sample.el_broken; Sample.dbt_test] false Sample.trk0 in
  let o := Cli.run Sample.accepting false false false false
                   ["tap-salesforce"; "target-mysql"; "dbt:test"] Sample.trk0 in
  result o = result ob
  /\ filter is_run_level_event (trace o)
     = [ECommandEvent cli_failed (contexts Sample.trk0)].
Proof.
  destruct (run_level_completion Sample.accepting false false false false
              ["tap-salesforce"; "target-mysql"; "dbt:test"] Sample.trk0
              [Sample.el_broken; Sample.dbt_test])
    as (_ & Hres & Hev & _); [reflexivity | discriminate | reflexivity |].
  exact (conj Hres Hev).
Defined.

(** ** Scoped event context *)

(** Run-level events are emitted with the tracker's own contexts only. *)
Lemma run_level_events_unscoped c dry_run full_refresh no_state_update force blocks
    trk ev attached :
  In (ECommandEvent ev attached)
     (trace (Cli.run c dry_run full_refresh no_state_update force blocks trk)) ->
  attached = contexts trk.
Proof.
  rewrite run_outcome. unfold after. cbn [trace]. intros Hin.
  apply in_app_or in Hin. destruct Hin as [Hin | Hin].
  { apply in_app_or in Hin. destruct Hin as [Hin | [Hin | []]]; [|discriminate].
    destruct (log_level_effects_quiet c dry_run _ Hin) as (H & _). discriminate. }
  assert (Hloop : forall plan, ~ In (ECommandEvent ev attached)
                                 (trace (Cli._run_blocks plan dry_run trk))).
  { intros plan H. apply run_blocks_from_effects in H.
    destruct H as [(i & n & e & a & H) | [(i & b & H) | (lv & s & f & H)]];
      discriminate. }
  destruct (find_blocks c blocks full_refresh no_state_update force)
    as [[|blk rest] | parser_err]; cbn [trace] in Hin.
  - destruct Hin as [H | [H | []]]; [congruence | discriminate].
  - destruct (validate_block_sets c (blk :: rest)); cbv zeta in Hin.
    + unfold after in Hin. cbn [trace app] in Hin.
      destruct Hin as [H | [H | Hin]]; try discriminate.
      destruct (result (Cli._run_blocks (blk :: rest) dry_run trk));
        cbn [trace] in Hin; apply in_app_or in Hin;
        (destruct Hin as [Hin | Hin]; [now apply Hloop in Hin|]).
      * destruct Hin as [H | [H | []]]; [congruence | discriminate].
      * destruct Hin as [H | []]; congruence.
    + cbn [trace] in Hin. destruct Hin as [H | [H | []]]; [discriminate | congruence].
  - destruct Hin as [H | []]; congruence.
Qed.

(** C8.  Every block event of the loop names the class of the unit it
    belongs to and is emitted with exactly one more context attached than
    the tracker has otherwise, the one derived from that unit's plugins.
    The context is attached for that emission only: the loop leaves the
    tracker as it found it, a context derived from plugins is a function of
    the unit's plugins alone, and the run-level events of the command carry
    the tracker's own contexts and nothing else. *)
Theorem block_events_scoped_context (plan : list Block) (dry_run : bool)
    (trk : Tracker) :
  let o := Cli._run_blocks plan dry_run trk in
  (forall idx name ev attached,
      In (EBlockEvent idx name ev attached) (trace o) ->
      exists blk, nth_error plan idx = Some blk
                  /\ name = class_name blk
                  /\ attached = contexts trk ++ [from_block blk])
  /\ tracker_after o = trk
  /\ (forall idx blk ev t,
        with_contexts (from_block blk) (track_block_event idx (class_name blk) ev) t
        = mkOutcome (Return tt) t
            [EBlockEvent idx (class_name blk) ev (contexts t ++ [from_block blk])])
  /\ (forall b1 b2, shape b1 = shape b2 -> from_block b1 = from_block b2)
  /\ (forall c full_refresh no_state_update force blocks ev attached,
        In (ECommandEvent ev attached)
           (trace (Cli.run c dry_run full_refresh no_state_update force blocks trk)) ->
        attached = contexts trk).
Proof.
  intros o. split; [|split; [|split; [|split]]].
  - intros idx name ev attached Hin. unfold o, Cli._run_blocks in Hin.
    apply block_event_origin in Hin.
    destruct Hin as (n & blk & -> & Hnth & Hname & Hatt). now exists blk.
  - apply run_blocks_from_tracker.
  - intros idx blk ev t. apply scoped_block_event.
  - intros b1 b2 H. unfold from_block. now rewrite H.
  - intros c fr nsu f blocks ev attached. apply run_level_events_unscoped.
Qed.

Lemma block_events_scoped_context_witness :
  exists blk,
    nth_error [Sample.el_gitlab; Sample.dbt_test] 1 = Some blk
    /\ "InvokerCommand" = class_name blk
    /\ contexts Sample.trk0 ++ [PluginsTrackingContext [("dbt", Some "test")]]
       = contexts Sample.trk0 ++ [from_block blk].
Proof.
  apply (block_events_scoped_context [Sample.el_gitlab; Sample.dbt_test] false Sample.trk0)
    with (idx := 1) (ev := completed).
  cbv. tauto.
Defined.

(** * Further properties of the loop *)

(** A predicate that is false of every log entry is false of whatever a
    failing iteration logs. *)
Lemma filter_logged (f : Effect -> bool) (logged : list Effect) :
  (forall lv s fl, f (ELog lv s fl) = false) ->
  (forall eff, In eff logged -> exists lv s fl, eff = ELog lv s fl) ->
  filter f logged = [].
Proof.
  intros Hf Hlog. apply filter_quiet. intros eff Hin.
  destruct (Hlog eff Hin) as (lv & s & fl & ->). apply Hf.
Qed.

Lemma run_calls_app tr1 tr2 :
  run_calls (tr1 ++ tr2) = run_calls tr1 ++ run_calls tr2.
Proof.
  induction tr1 as [|eff tr1 IH]; [reflexivity|].
  destruct eff; simpl; auto. now rewrite IH.
Qed.

Lemma run_calls_logged logged :
  (forall eff, In eff logged -> exists lv s fl, eff = ELog lv s fl) ->
  run_calls logged = [].
Proof.
  induction logged as [|eff logged IH]; intros Hlog; [reflexivity|].
  destruct (Hlog eff (or_introl eq_refl)) as (lv & s & fl & ->). simpl.
  apply IH. intros eff' Hin. apply Hlog. now right.
Qed.

(** What a failing iteration raises. *)
Lemma run_blocks_from_raised idx total blk rest trk e :
  run blk = Raises e ->
  result (Cli.run_blocks_from idx total (blk :: rest) false trk) = Raise (surfaced e).
Proof.
  intros Hrun. unfold surfaced. destruct (is_RunnerError e) eqn:Hcls.
  - destruct e as [msg codes| |]; try discriminate.
    now rewrite (run_blocks_from_runner_error _ _ _ _ _ _ _ Hrun).
  - now rewrite (run_blocks_from_other_error _ _ _ _ _ _ Hrun Hcls).
Qed.

Lemma surfaced_not_runner_error e : is_RunnerError (surfaced e) = false.
Proof. unfold surfaced. destruct e; reflexivity. Qed.

(** ** Success of the loop *)

Lemma returned_run_blocks_from l : forall idx total trk,
  returned (result (Cli.run_blocks_from idx total l false trk)) = forallb succeeds l.
Proof.
  induction l as [|blk rest IH]; intros idx total trk; [reflexivity|].
  simpl forallb. unfold succeeds at 1. destruct (run blk) as [|e] eqn:Hrun.
  - rewrite (run_blocks_from_returns _ _ _ _ _ Hrun). simpl. apply IH.
  - now rewrite (run_blocks_from_raised _ _ _ _ _ _ Hrun).
Qed.

(** X1.  Outside a dry run the loop returns exactly when the [run()] of
    every unit of the plan returns; in a dry run it always returns. *)
Theorem run_blocks_returns_iff_all_succeed (plan : list Block) (dry_run : bool)
    (trk : Tracker) :
  returned (result (Cli._run_blocks plan dry_run trk))
  = (dry_run || forallb succeeds plan)%bool.
Proof.
  unfold Cli._run_blocks. destruct dry_run.
  - now rewrite dry_run_outcome.
  - apply returned_run_blocks_from.
Qed.

(** ** Where the loop's exception comes from *)

Lemma raised_origin l : forall idx total dry_run trk e',
  result (Cli.run_blocks_from idx total l dry_run trk) = Raise e' ->
  dry_run = false
  /\ exists k u e,
       nth_error l k = Some u /\ run u = Raises e
       /\ forallb succeeds (firstn k l) = true /\ e' = surfaced e.
Proof.
  induction l as [|blk rest IH]; intros idx total dry_run trk e' Hres.
  - discriminate.
  - destruct dry_run; [rewrite dry_run_outcome in Hres; discriminate|].
    split; [reflexivity|].
    destruct (run blk) as [|e] eqn:Hrun.
    + rewrite (run_blocks_from_returns _ _ _ _ _ Hrun) in Hres. simpl in Hres.
      destruct (IH _ _ _ _ _ Hres) as (_ & k & u & e & Hk & Hu & Hpre & He).
      exists (S k), u, e. repeat split; auto.
      simpl. unfold succeeds at 1. now rewrite Hrun.
    + rewrite (run_blocks_from_raised _ _ _ _ _ _ Hrun) in Hres.
      injection Hres as <-. exists 0, blk, e. repeat split; auto.
Qed.

(** X2.  Whatever the loop raises comes from the first unit whose [run()]
    raises: it is that unit's exception, wrapped in a [CliError] when it is
    a [RunnerError] and unchanged otherwise.  So the loop never raises a
    [RunnerError] itself, and a dry run never raises. *)
Theorem run_blocks_exception_origin (plan : list Block) (dry_run : bool)
    (trk : Tracker) (e' : PyException) :
  result (Cli._run_blocks plan dry_run trk) = Raise e' ->
  dry_run = false
  /\ is_RunnerError e' = false
  /\ exists k u e,
       nth_error plan k = Some u /\ run u = Raises e
       /\ forallb succeeds (firstn k plan) = true /\ e' = surfaced e.
Proof.
  intros Hres. unfold Cli._run_blocks in Hres.
  destruct (raised_origin _ _ _ _ _ _ Hres) as (Hdry & k & u & e & Hk & Hu & Hpre & ->).
  split; [exact Hdry|split; [apply surfaced_not_runner_error|]].
  now exists k, u, e.
Qed.

Lemma run_blocks_exception_origin_witness :
  false = false
  /\ is_RunnerError (CliError (Cli.block_failed_message (RunnerError "Loader failed" [0%Z; 1%Z]))
                              (Some (RunnerError "Loader failed" [0%Z; 1%Z]))) = false
  /\ exists k u e,
       nth_error [Sample.el_gitlab; Sample.el_broken; Sample.dbt_crash] k = Some u
       /\ run u = Raises e
       /\ forallb succeeds (firstn k [Sample.el_gitlab; Sample.el_broken; Sample.dbt_crash])
          = true
       /\ CliError (Cli.block_failed_message (RunnerError "Loader failed" [0%Z; 1%Z]))
                   (Some (RunnerError "Loader failed" [0%Z; 1%Z]))
          = surfaced e.
Proof.
  apply (run_blocks_exception_origin
           [Sample.el_gitlab; Sample.el_broken; Sample.dbt_crash] false Sample.trk0).
  reflexivity.
Defined.

(** ** Which units are run *)

Lemma enumerate_from_nil idx : enumerate_from idx [] = [].
Proof. reflexivity. Qed.

Lemma run_calls_from l : forall idx total trk,
  run_calls (trace (Cli.run_blocks_from idx total l false trk))
  = enumerate_from idx (firstn (units_started l) l).
Proof.
  induction l as [|blk rest IH]; intros idx total trk; [reflexivity|].
  simpl units_started. unfold succeeds. destruct (run blk) as [|e] eqn:Hrun.
  - rewrite (run_blocks_from_returns _ _ _ _ _ Hrun). simpl firstn.
    rewrite enumerate_from_cons. simpl. f_equal. apply IH.
  - destruct (run_blocks_from_raises idx total blk rest trk e Hrun)
      as (e' & logged & -> & Hlog).
    simpl. rewrite run_calls_app, (run_calls_logged logged Hlog). reflexivity.
Qed.

Lemma units_started_le l : units_started l <= List.length l.
Proof.
  induction l as [|blk rest IH]; [reflexivity|].
  simpl. destruct (succeeds blk); lia.
Qed.

(** X3.  Outside a dry run the units are run in the order of the plan,
    each once, starting with the first and stopping with the first one that
    raises: the calls to [run()] are those of the first [units_started plan]
    units, in order, each on the unit of the plan at its index. *)
Theorem units_run_in_plan_order (plan : list Block) (trk : Tracker) :
  run_calls (trace (Cli._run_blocks plan false trk))
  = enumerate_from 0 (firstn (units_started plan) plan)
  /\ units_started plan <= List.length plan
  /\ (forallb succeeds plan = true -> units_started plan = List.length plan).
Proof.
  split; [apply run_calls_from|split; [apply units_started_le|]].
  induction plan as [|blk rest IH]; [reflexivity|].
  simpl. destruct (succeeds blk); [|discriminate].
  intros H. now rewrite IH.
Qed.

Lemma units_run_in_plan_order_witness :
  run_calls (trace (Cli._run_blocks [Sample.el_gitlab; Sample.dbt_test] false Sample.trk0))
  = enumerate_from 0 [Sample.el_gitlab; Sample.dbt_test]
  /\ units_started [Sample.el_gitlab; Sample.dbt_test] = 2.
Proof.
  destruct (units_run_in_plan_order [Sample.el_gitlab; Sample.dbt_test] Sample.trk0)
    as (Hcalls & _ & Hall).
  split; [exact Hcalls|apply Hall; reflexivity].
Defined.

(** ** Dry run against real run *)

Lemma initialized_dry_cons idx total blk rest trk :
  filter is_initialized (trace (Cli.run_blocks_from idx total (blk :: rest) true trk))
  = block_event trk idx blk initialized
    :: filter is_initialized (trace (Cli.run_blocks_from (S idx) total rest true trk)).
Proof. rewrite run_blocks_from_dry. reflexivity. Qed.

Lemma initialized_prefix l : forall idx total total' trk,
  filter is_initialized (trace (Cli.run_blocks_from idx total l false trk))
  = firstn (units_started l)
      (filter is_initialized (trace (Cli.run_blocks_from idx total' l true trk))).
Proof.
  induction l as [|blk rest IH]; intros idx total total' trk; [reflexivity|].
  rewrite initialized_dry_cons. simpl units_started. unfold succeeds.
  destruct (run blk) as [|e] eqn:Hrun.
  - rewrite (run_blocks_from_returns _ _ _ _ _ Hrun). simpl. f_equal. apply IH.
  - destruct (run_blocks_from_raises idx total blk rest trk e Hrun)
      as (e' & logged & -> & Hlog).
    simpl. rewrite filter_app.
    rewrite (filter_logged is_initialized logged) by (auto || reflexivity).
    reflexivity.
Qed.

(** X4.  A dry run announces what a real run would start: the
    [initialized] events of a real run are the first [units_started plan]
    of those of the dry run of the same plan, event for event, and all of
    them when every unit returns. *)
Theorem dry_run_previews_real_run (plan : list Block) (trk : Tracker) :
  let real := trace (Cli._run_blocks plan false trk) in
  let dry := trace (Cli._run_blocks plan true trk) in
  filter is_initialized real = firstn (units_started plan) (filter is_initialized dry)
  /\ (forallb succeeds plan = true ->
      filter is_initialized real = filter is_initialized dry).
Proof.
  intros real dry.
  assert (Hpre : filter is_initialized real
                 = firstn (units_started plan) (filter is_initialized dry))
    by apply initialized_prefix.
  split; [exact Hpre|]. intros Hall. rewrite Hpre.
  apply firstn_all2.
  assert (Hlen : List.length (filter is_initialized dry) = List.length plan).
  { unfold dry, Cli._run_blocks. rewrite dry_run_outcome. apply dry_run_count. }
  rewrite Hlen. clear Hpre Hlen real dry.
  induction plan as [|blk rest IH]; [reflexivity|].
  simpl in *. destruct (succeeds blk); [|discriminate]. simpl. apply le_n_S. now apply IH.
Qed.

Lemma dry_run_previews_real_run_witness :
  let plan := [Sample.el_gitlab; Sample.dbt_test] in
  filter is_initialized (trace (Cli._run_blocks plan false Sample.trk0))
  = filter is_initialized (trace (Cli._run_blocks plan true Sample.trk0)).
Proof.
  apply (dry_run_previews_real_run [Sample.el_gitlab; Sample.dbt_test] Sample.trk0).
  reflexivity.
Defined.

(** ** Every started unit is accounted for *)

Lemma started_accounted l : forall idx total trk,
  let tr := trace (Cli.run_blocks_from idx total l false trk) in
  List.length (filter is_initialized tr) = units_started l
  /\ List.length (filter is_run tr) = units_started l
  /\ List.length (filter is_terminal tr) = units_started l.
Proof.
  induction l as [|blk rest IH]; intros idx total trk; [now repeat split|].
  simpl units_started. unfold succeeds. destruct (run blk) as [|e] eqn:Hrun.
  - rewrite (run_blocks_from_returns _ _ _ _ _ Hrun).
    destruct (IH (S idx) total trk) as (H1 & H2 & H3).
    simpl. now rewrite H1, H2, H3.
  - destruct (run_blocks_from_raises idx total blk rest trk e Hrun)
      as (e' & logged & -> & Hlog).
    simpl. rewrite !filter_app.
    rewrite (filter_logged is_initialized logged) by (auto || reflexivity).
    rewrite (filter_logged is_run logged) by (auto || reflexivity).
    rewrite (filter_logged is_terminal logged) by (auto || reflexivity).
    now repeat split.
Qed.

(** X5.  Outside a dry run every unit that is announced is run and gets
    its closing event: the trace holds as many [initialized] events as
    calls to [run()] as [completed] or [failed] events, one of each per
    started unit. *)
Theorem started_units_accounted_for (plan : list Block) (trk : Tracker) :
  let tr := trace (Cli._run_blocks plan false trk) in
  List.length (filter is_initialized tr) = units_started plan
  /\ List.length (filter is_run tr) = units_started plan
  /\ List.length (filter is_terminal tr) = units_started plan.
Proof. apply started_accounted. Qed.

(** ** A dry run does not look at [run()] *)

Lemma dry_run_reads_description p1 : forall p2 idx total trk,
  map description p1 = map description p2 ->
  Cli.run_blocks_from idx total p1 true trk = Cli.run_blocks_from idx total p2 true trk.
Proof.
  induction p1 as [|b1 p1 IH]; intros [|b2 p2] idx total trk Hmap;
    try discriminate; [reflexivity|].
  simpl in Hmap. injection Hmap as Hcls Hshape Hrest.
  rewrite !run_blocks_from_dry, (IH p2 (S idx) total trk Hrest).
  unfold block_event, Cli.dry_run_log_entry, Cli.comprised_of, from_block.
  now rewrite Hcls, Hshape.
Qed.

(** X6.  A dry run depends on the class names and the plugins of the
    units only: two plans that differ in nothing but what their units'
    [run()] would do have the same dry run, effect for effect. *)
Theorem dry_run_ignores_run_behaviour (p1 p2 : list Block) (trk : Tracker) :
  map description p1 = map description p2 ->
  Cli._run_blocks p1 true trk = Cli._run_blocks p2 true trk.
Proof.
  intros Hmap. unfold Cli._run_blocks.
  assert (Hlen : List.length p1 = List.length p2).
  { rewrite <- (length_map description p1), Hmap. apply length_map. }
  rewrite Hlen. now apply dry_run_reads_description.
Qed.

Lemma dry_run_ignores_run_behaviour_witness :
  Cli._run_blocks [Sample.el_gitlab; Sample.dbt_test] true Sample.trk0
  = Cli._run_blocks
      [mkBlock "ExtractLoadBlocks" (BlockSet ["tap-gitlab"; "target-postgres"])
               (Raises (RunnerError "Extractor failed" [1%Z; 0%Z]));
       Sample.dbt_test]
      true Sample.trk0.
Proof.
  apply (dry_run_ignores_run_behaviour
           [Sample.el_gitlab; Sample.dbt_test]
           [mkBlock "ExtractLoadBlocks" (BlockSet ["tap-gitlab"; "target-postgres"])
                    (Raises (RunnerError "Extractor failed" [1%Z; 0%Z]));
            Sample.dbt_test]
           Sample.trk0).
  reflexivity.
Defined.

(** * Further properties of the command *)

Lemma returned_loop plan dry_run trk :
  returned (result (Cli._run_blocks plan dry_run trk))
  = (dry_run || forallb succeeds plan)%bool.
Proof.
  unfold Cli._run_blocks. destruct dry_run.
  - now rewrite dry_run_outcome.
  - apply returned_run_blocks_from.
Qed.

(** A predicate that is false of block events, of runs and of log entries
    is false of everything the loop does. *)
Lemma filter_loop (f : Effect -> bool) plan dry_run trk :
  (forall i n ev a, f (EBlockEvent i n ev a) = false) ->
  (forall i b, f (ERun i b) = false) ->
  (forall lv s fl, f (ELog lv s fl) = false) ->
  filter f (trace (Cli._run_blocks plan dry_run trk)) = [].
Proof.
  intros Hev Hrun Hlog. apply filter_quiet. intros eff Hin.
  unfold Cli._run_blocks in Hin. apply run_blocks_from_effects in Hin.
  destruct Hin as [(i & n & ev & a & ->) | [(i & b & ->) | (lv & s & fl & ->)]]; auto.
Qed.

Lemma log_level_effects_value c dry_run :
  log_level_effects c dry_run
  = if (dry_run && negb (truthy (dict_get (config_override c) "cli.log_level")))%bool
    then [ELog info "Setting 'console' handler log level to 'debug' for dry run" [];
          EChangeConsoleLogLevel]
    else [].
Proof.
  unfold log_level_effects, Cli.dry_run_log_level.
  destruct dry_run; [|reflexivity].
  destruct (negb (truthy (dict_get (config_override c) "cli.log_level")));
    reflexivity.
Qed.

Lemma filter_log_level_effects (f : Effect -> bool) c dry_run :
  (forall lv s fl, f (ELog lv s fl) = false) ->
  f EChangeConsoleLogLevel = false ->
  filter f (log_level_effects c dry_run) = [].
Proof.
  intros Hlog Hchange. rewrite log_level_effects_value.
  destruct (dry_run && _)%bool; [|reflexivity].
  cbn [filter]. now rewrite Hlog, Hchange.
Qed.

Section CommandPaths.

Variable c : Collaborators.
Variables dry_run full_refresh no_state_update force : bool.
Variable blocks : list string.
Variable trk : Tracker.

Let o := Cli.run c dry_run full_refresh no_state_update force blocks trk.

(** The trace of the command with the loop's part left symbolic, for the
    two ways the loop can end. *)
Lemma run_trace_validated parsed_blocks :
  find_blocks c blocks full_refresh no_state_update force = Return parsed_blocks ->
  parsed_blocks <> [] ->
  validate_block_sets c parsed_blocks = true ->
  let ob := Cli._run_blocks parsed_blocks dry_run trk in
  returned (result o) = returned (result ob)
  /\ tracker_after o = trk
  /\ trace o = log_level_effects c dry_run
               ++ [EFindBlocks blocks full_refresh no_state_update force;
                   EValidate parsed_blocks;
                   ELog debug "All ExtractLoadBlocks validated, starting execution." []]
               ++ trace ob
               ++ (if returned (result ob)
                   then [ECommandEvent cli_completed (contexts trk);
                         ELegacyTrackRun blocks]
                   else [ECommandEvent cli_failed (contexts trk)]).
Proof.
  intros Hparse Hne Hval ob. unfold o. rewrite run_outcome, Hparse.
  destruct parsed_blocks as [|blk rest]; [congruence|].
  rewrite Hval. cbv zeta. fold ob. unfold after.
  destruct (result ob) as [[]|err]; cbn [result tracker_after trace returned];
    rewrite <- !app_assoc; cbn [app]; repeat split; reflexivity.
Qed.

(** The trace of the command when it stops before the loop. *)
Lemma run_trace_stopped :
  match find_blocks c blocks full_refresh no_state_update force with
  | Return ((_ :: _) as parsed_blocks) => validate_block_sets c parsed_blocks = false
  | _ => True
  end ->
  tracker_after o = trk
  /\ returned (result o)
     = match find_blocks c blocks full_refresh no_state_update force with
       | Return [] => true
       | _ => false
       end
  /\ trace o = log_level_effects c dry_run
               ++ EFindBlocks blocks full_refresh no_state_update force
               :: match find_blocks c blocks full_refresh no_state_update force with
                  | Raise _ => [ECommandEvent cli_aborted (contexts trk)]
                  | Return [] => [ECommandEvent cli_aborted (contexts trk);
                                  ELog info "No valid blocks found." []]
                  | Return parsed_blocks =>
                      [EValidate parsed_blocks;
                       ECommandEvent cli_aborted (contexts trk)]
                  end.
Proof.
  intros Hstop. unfold o. rewrite run_outcome.
  destruct (find_blocks c blocks full_refresh no_state_update force)
    as [[|blk rest] | parser_err];
    [| rewrite Hstop |];
    unfold after; cbn [result tracker_after trace returned];
    rewrite <- !app_assoc; cbn [app]; repeat split; reflexivity.
Qed.

(** The command either stops before the loop or reaches it. *)
Lemma run_paths :
  match find_blocks c blocks full_refresh no_state_update force with
  | Return ((_ :: _) as parsed_blocks) => validate_block_sets c parsed_blocks = false
  | _ => True
  end
  \/ exists parsed_blocks,
       find_blocks c blocks full_refresh no_state_update force = Return parsed_blocks
       /\ parsed_blocks <> []
       /\ validate_block_sets c parsed_blocks = true.
Proof.
  destruct (find_blocks c blocks full_refresh no_state_update force)
    as [[|blk rest] | parser_err]; auto.
  destruct (validate_block_sets c (blk :: rest)) eqn:Hval; auto.
  right. exists (blk :: rest). repeat split; auto. discriminate.
Qed.

Ltac loop_free :=
  rewrite !filter_app;
  rewrite ?(filter_log_level_effects _ c dry_run) by reflexivity;
  rewrite ?filter_loop by reflexivity.

(** X7.  The command returns normally in two cases only: the parser finds
    no block, or the plan passes validation and the loop returns, that is
    in a dry run or when every unit's [run()] returns.  In every other case
    it raises. *)
Theorem run_returns_iff :
  returned (result o)
  = match find_blocks c blocks full_refresh no_state_update force with
    | Raise _ => false
    | Return [] => true
    | Return parsed_blocks =>
        (validate_block_sets c parsed_blocks
         && (dry_run || forallb succeeds parsed_blocks))%bool
    end.
Proof.
  destruct run_paths as [Hstop | (plan & Hparse & Hne & Hval)].
  - destruct (run_trace_stopped Hstop) as (_ & -> & _).
    destruct (find_blocks c blocks full_refresh no_state_update force)
      as [[|blk rest] | parser_err]; try reflexivity.
    now rewrite Hstop.
  - destruct (run_trace_validated plan Hparse Hne Hval) as (-> & _).
    rewrite Hparse, Hval, returned_loop.
    destruct plan; [congruence|reflexivity].
Qed.

(** X8.  The body of the command calls [tracker.track_command_event]
    exactly once, whenever the parser returns or raises an [Exception], the
    validator returns a boolean and every [run()] returns or raises an
    [Exception]: with [aborted] when the parser raises, finds nothing or the
    plan fails validation, with [completed] when the loop returns and with
    [failed] when it raises.  Events that [InstrumentedCmd] sends around the
    body are not counted. *)
Theorem exactly_one_run_level_event :
  filter is_run_level_event (trace o)
  = [ECommandEvent
       (run_level_verdict c dry_run full_refresh no_state_update force blocks)
       (contexts trk)].
Proof.
  unfold run_level_verdict.
  destruct run_paths as [Hstop | (plan & Hparse & Hne & Hval)].
  - destruct (run_trace_stopped Hstop) as (_ & _ & ->).
    change (?a ++ ?x :: ?l) with (a ++ [x] ++ l). loop_free.
    destruct (find_blocks c blocks full_refresh no_state_update force)
      as [[|blk rest] | parser_err]; try reflexivity.
    now rewrite Hstop.
  - destruct (run_trace_validated plan Hparse Hne Hval) as (_ & _ & ->).
    loop_free. rewrite Hparse, Hval, <- (returned_loop plan dry_run trk).
    destruct plan; [congruence|].
    destruct (returned _); reflexivity.
Qed.

(** X9.  The legacy tracker is called exactly when the run-level event is
    [completed], then once and with the tokens the command was given; an
    aborted or failed invocation never reaches it. *)
Theorem legacy_tracking_iff_completed :
  filter is_legacy_track (trace o)
  = if existsb is_run_completed (trace o) then [ELegacyTrackRun blocks] else [].
Proof.
  destruct run_paths as [Hstop | (plan & Hparse & Hne & Hval)].
  - destruct (run_trace_stopped Hstop) as (_ & _ & ->).
    change (?a ++ ?x :: ?l) with (a ++ [x] ++ l).
    rewrite !existsb_app. loop_free.
    rewrite log_level_effects_value.
    destruct (dry_run && _)%bool;
      destruct (find_blocks c blocks full_refresh no_state_update force)
        as [[|blk rest] | parser_err]; reflexivity.
  - destruct (run_trace_validated plan Hparse Hne Hval) as (_ & _ & ->).
    rewrite !existsb_app. loop_free.
    assert (Hloop : existsb is_run_completed
                      (trace (Cli._run_blocks plan dry_run trk)) = false).
    { apply not_true_is_false. intros H. apply existsb_exists in H.
      destruct H as (eff & Hin & Heff).
      unfold Cli._run_blocks in Hin. apply run_blocks_from_effects in Hin.
      destruct Hin as [(i & n & ev & a & ->) | [(i & b & ->) | (lv & s & fl & ->)]];
        discriminate. }
    rewrite Hloop, log_level_effects_value.
    destruct (dry_run && _)%bool; destruct (returned _); reflexivity.
Qed.

(** The command leaves the tracker's contexts as it found them, whether it
    returns or raises and wherever it stops. *)
Theorem run_restores_tracker : tracker_after o = trk.
Proof.
  destruct run_paths as [Hstop | (plan & Hparse & Hne & Hval)].
  - apply (run_trace_stopped Hstop).
  - apply (run_trace_validated plan Hparse Hne Hval).
Qed.

(** X10.  Every invocation calls the block parser exactly once, with the
    tokens and the three flags it was given and with nothing that depends
    on [dry_run]; it calls the validator at most once, on the whole plan as
    the parser returned it, and not at all when the parser raises or finds
    nothing. *)
Theorem parser_and_validator_calls :
  filter is_find_blocks (trace o)
  = [EFindBlocks blocks full_refresh no_state_update force]
  /\ filter is_validate (trace o)
     = match find_blocks c blocks full_refresh no_state_update force with
       | Return ((_ :: _) as parsed_blocks) => [EValidate parsed_blocks]
       | _ => []
       end.
Proof.
  destruct run_paths as [Hstop | (plan & Hparse & Hne & Hval)].
  - destruct (run_trace_stopped Hstop) as (_ & _ & ->).
    change (?a ++ ?x :: ?l) with (a ++ [x] ++ l). loop_free.
    destruct (find_blocks c blocks full_refresh no_state_update force)
      as [[|blk rest] | parser_err]; split; reflexivity.
  - destruct (run_trace_validated plan Hparse Hne Hval) as (_ & _ & ->).
    loop_free. rewrite Hparse.
    destruct plan; [congruence|].
    destruct (returned _); split; reflexivity.
Qed.

(** X11.  The console log level is changed in a dry run whose settings do
    not override [cli.log_level] with a non-empty value, and in no other
    invocation; it is changed at most once. *)
Theorem log_level_changed_only_in_dry_run :
  filter is_change_log_level (trace o)
  = if (dry_run && negb (truthy (dict_get (config_override c) "cli.log_level")))%bool
    then [EChangeConsoleLogLevel]
    else [].
Proof.
  destruct run_paths as [Hstop | (plan & Hparse & Hne & Hval)].
  - destruct (run_trace_stopped Hstop) as (_ & _ & ->).
    change (?a ++ ?x :: ?l) with (a ++ [x] ++ l).
    rewrite !filter_app, log_level_effects_value.
    destruct (dry_run && _)%bool;
      destruct (find_blocks c blocks full_refresh no_state_update force)
        as [[|blk rest] | parser_err]; reflexivity.
  - destruct (run_trace_validated plan Hparse Hne Hval) as (_ & _ & ->).
    rewrite !filter_app, filter_loop by reflexivity.
    rewrite log_level_effects_value.
    destruct (dry_run && _)%bool; destruct (returned _); reflexivity.
Qed.

End CommandPaths.
